(** * Friend recommendations: a shallow embedding of the computation

    The development follows [app/backend/logic/recomendation_model.py] and
    [calculate_recomendations] of [app/backend/api/models/handlers.py].

    - A Spark DataFrame is a list of rows.  Spark fixes no row order for
      joins, [groupBy] and window partitions, so the statements below are
      about membership, about the rows of one user, or hold for every
      admissible order.
    - The order of rows that tie on the window's [orderBy] expression is
      left open by Spark; the model takes it as a parameter [tie], a key
      per (user, fof) pair that decides among equal [common_friends].
    - [bigint] columns are [Z]; sums, differences and absolute values of
      [bigint] wrap around at 64 bits as Spark's default arithmetic does.
      Integers read from the files are taken to fit a [bigint].
    - [double] columns are binary64 floats.
    - Input files are lists of lines of ASCII text. *)

From Stdlib Require Import ZArith List String Ascii Bool Lia.
From Stdlib Require Import Permutation Sorted PrimFloat DecimalString DecimalZ.
Import ListNotations.

Set Warnings "-inexact-float".

Open Scope Z_scope.

(** ** Exceptions of the Python lambdas and of [createDataFrame] *)

Inductive py_error : Type :=
| ValueError
| IndexError.

Inductive result (A : Type) : Type :=
| Ok (a : A)
| Raise (e : py_error).

Arguments Ok {A} a.
Arguments Raise {A} e.

Definition bind {A B : Type} (m : result A) (k : A -> result B) : result B :=
  match m with
  | Ok a => k a
  | Raise e => Raise e
  end.

Notation "x <- m ;; k" := (bind m (fun x => k))
  (at level 61, m at next level, right associativity).

(** [rdd.map(f).collect()]: the first failing element raises. *)
Fixpoint map_result {A B : Type} (f : A -> result B) (l : list A) : result (list B) :=
  match l with
  | [] => Ok []
  | x :: xs => y <- f x ;; ys <- map_result f xs ;; Ok (y :: ys)
  end.

(** ** Python string primitives *)

Module PyStr.

Definition space : ascii := " "%char.
Definition comma : ascii := ","%char.
Definition underscore : ascii := "_"%char.

(** [s.split(sep)] for a one-character separator. *)
Fixpoint split_acc (sep : ascii) (cur : string) (s : string) : list string :=
  match s with
  | EmptyString => [cur]
  | String c rest =>
      if Ascii.eqb c sep then cur :: split_acc sep EmptyString rest
      else split_acc sep (cur ++ String c EmptyString)%string rest
  end.

Definition split (sep : ascii) (s : string) : list string :=
  split_acc sep EmptyString s.

(** [s.split(sep, 1)]: cut at the first separator only. *)
Fixpoint split1_acc (sep : ascii) (cur : string) (s : string) : list string :=
  match s with
  | EmptyString => [cur]
  | String c rest =>
      if Ascii.eqb c sep then [cur; rest]
      else split1_acc sep (cur ++ String c EmptyString)%string rest
  end.

Definition split1 (sep : ascii) (s : string) : list string :=
  split1_acc sep EmptyString s.

(** [s.split(", ")]. *)
Fixpoint split_comma_space_acc (cur : string) (s : string) : list string :=
  match s with
  | EmptyString => [cur]
  | String c rest =>
      match rest with
      | String c' rest' =>
          if (Ascii.eqb c comma && Ascii.eqb c' space)%bool
          then cur :: split_comma_space_acc EmptyString rest'
          else split_comma_space_acc (cur ++ String c EmptyString)%string rest
      | EmptyString => [(cur ++ String c EmptyString)%string]
      end
  end.

Definition split_comma_space (s : string) : list string :=
  split_comma_space_acc EmptyString s.

(** ASCII white space as [str.strip] and [int] see it. *)
Definition is_space (c : ascii) : bool :=
  let n := nat_of_ascii c in
  (Nat.eqb n 32 || (Nat.leb 9 n && Nat.leb n 13) || (Nat.leb 28 n && Nat.leb n 31))%bool.

Fixpoint lstrip (s : string) : string :=
  match s with
  | EmptyString => EmptyString
  | String c rest => if is_space c then lstrip rest else s
  end.

Fixpoint rstrip (s : string) : string :=
  match s with
  | EmptyString => EmptyString
  | String c rest =>
      match rstrip rest with
      | EmptyString => if is_space c then EmptyString else String c EmptyString
      | r => String c r
      end
  end.

Definition strip (s : string) : string := rstrip (lstrip s).

Definition digit_of (c : ascii) : option Z :=
  let n := nat_of_ascii c in
  if (Nat.leb 48 n && Nat.leb n 57)%bool then Some (Z.of_nat (n - 48)) else None.

(** Decimal digits, single underscores allowed between digits. *)
Fixpoint digits (acc : Z) (after_digit : bool) (s : string) : option Z :=
  match s with
  | EmptyString => if after_digit then Some acc else None
  | String c rest =>
      match digit_of c with
      | Some d => digits (10 * acc + d) true rest
      | None =>
          if (Ascii.eqb c underscore && after_digit)%bool
          then digits acc false rest
          else None
      end
  end.

(** White space as [int] skips it around a number: the characters of C's
    [isspace], codes 9 to 13 and 32; the separators of codes 28 to 31,
    which [str.strip] removes, are refused by [int]. *)
Definition is_c_space (c : ascii) : bool :=
  let n := nat_of_ascii c in
  (Nat.eqb n 32 || (Nat.leb 9 n && Nat.leb n 13))%bool.

Fixpoint lskip (s : string) : string :=
  match s with
  | EmptyString => EmptyString
  | String c rest => if is_c_space c then lskip rest else s
  end.

Fixpoint rskip (s : string) : string :=
  match s with
  | EmptyString => EmptyString
  | String c rest =>
      match rskip rest with
      | EmptyString => if is_c_space c then EmptyString else String c EmptyString
      | r => String c r
      end
  end.

(** [int(s)] on a string. *)
Definition int (s : string) : result Z :=
  let body :=
    match rskip (lskip s) with
    | String "+"%char rest => digits 0 false rest
    | String "-"%char rest => option_map Z.opp (digits 0 false rest)
    | t => digits 0 false t
    end in
  match body with
  | Some z => Ok z
  | None => Raise ValueError
  end.

(** [l[i]] on a list. *)
Definition index {A : Type} (l : list A) (i : nat) : result A :=
  match nth_error l i with
  | Some x => Ok x
  | None => Raise IndexError
  end.

(** [str(z)] for an integer. *)
Definition str_int (z : Z) : string := NilZero.string_of_int (Z.to_int z).

End PyStr.

(** ** Spark SQL values *)

Module Sql.

(** Two's complement wrap-around of [bigint] arithmetic. *)
Definition wrap64 (z : Z) : Z := (z + 2 ^ 63) mod 2 ^ 64 - 2 ^ 63.

Definition sum (l : list Z) : Z := wrap64 (fold_right Z.add 0 l).

(** Null-propagating operators on nullable [bigint] columns. *)
Definition sub (a b : option Z) : option Z :=
  match a, b with
  | Some x, Some y => Some (wrap64 (x - y))
  | _, _ => None
  end.

Definition abs (a : option Z) : option Z := option_map (fun x => wrap64 (Z.abs x)) a.

Definition eq (a b : option Z) : option bool :=
  match a, b with
  | Some x, Some y => Some (x =? y)
  | _, _ => None
  end.

Definition lt (a b : option Z) : option bool :=
  match a, b with
  | Some x, Some y => Some (x <? y)
  | _, _ => None
  end.

Definition ge (a b : option Z) : option bool :=
  match a, b with
  | Some x, Some y => Some (x >=? y)
  | _, _ => None
  end.

(** Three-valued [&] and [|]. *)
Definition and3 (a b : option bool) : option bool :=
  match a, b with
  | Some false, _ | _, Some false => Some false
  | Some true, Some true => Some true
  | _, _ => None
  end.

Definition or3 (a b : option bool) : option bool :=
  match a, b with
  | Some true, _ | _, Some true => Some true
  | Some false, Some false => Some false
  | _, _ => None
  end.

(** A [when] branch is taken only when its condition is true, not null. *)
Definition holds (c : option bool) : bool :=
  match c with
  | Some true => true
  | _ => false
  end.

End Sql.

(** ** [logic/recomendation_model.py] *)

Module Model.

(** Columns [user], [friends] of the base DataFrame. *)
Record base_row : Type := { b_user : Z; b_friends : list Z }.

(** Columns [ID], gender, age, city, higher education of the secondary
    DataFrame. *)
Record demo_row : Type :=
  { ID : Z; gender : Z; age : Z; city : Z; education : Z }.

(** Columns [user], [friends], [friend] after [explode]. *)
Record exploded_row : Type :=
  { x_user : Z; x_friends : list Z; x_friend : Z }.

(** Columns [user], [friends], [friend], [fof] after the self join. *)
Record fof_row : Type :=
  { j_user : Z; j_friends : list Z; j_friend : Z; j_fof : Z }.

(** Columns [user], [fof], [common_friends] after [groupBy]. *)
Record agg_row : Type := { g_user : Z; g_fof : Z; common_friends : Z }.

(** Columns [user], [fof], [rank] of the result. *)
Record rec_row : Type := { user : Z; fof : Z; rank : Z }.

(** The result of the two left joins: the recommendation and the matched
    secondary rows, [None] where the join found none (the four renamed
    columns of that side are null together). *)
Record joined_row : Type :=
  { recommendation : rec_row;
    user_props : option demo_row;
    potential_friend_props : option demo_row }.

Record scored_row : Type := { joined : joined_row; probability : float }.

(** *** [create_dataframe_for_N_recommendation] *)

Definition friend_pair (line : string) : result base_row :=
  let pair := PyStr.split1 PyStr.space line in
  p0 <- PyStr.index pair 0 ;;
  u <- PyStr.int p0 ;;
  p1 <- PyStr.index pair 1 ;;
  fs <- map_result PyStr.int (PyStr.split PyStr.comma p1) ;;
  Ok {| b_user := u; b_friends := fs |}.

(** [createDataFrame] cannot infer a schema from no rows.  The rows are
    kept as they are: the frames of this development hold [bigint]
    values, and an integer of the file that does not fit one, which Spark
    would store as null, is outside of it. *)
Definition createDataFrame {A : Type} (data : list A) : result (list A) :=
  match data with
  | [] => Raise ValueError
  | _ => Ok data
  end.

Definition create_dataframe_for_N_recommendation (base_file : list string)
  : result (list base_row) :=
  data <- map_result friend_pair base_file ;;
  createDataFrame data.

(** *** [create_dataframe_for_probability] *)

Definition demo_record (line : string) : result demo_row :=
  let parts := PyStr.split1 PyStr.space line in
  p0 <- PyStr.index parts 0 ;;
  id <- PyStr.int (PyStr.strip p0) ;;
  p1 <- PyStr.index parts 1 ;;
  let fields := PyStr.split_comma_space p1 in
  f1 <- PyStr.index fields 0 ;;
  g <- PyStr.int f1 ;;
  f2 <- PyStr.index fields 1 ;;
  a <- PyStr.int f2 ;;
  f3 <- PyStr.index fields 2 ;;
  c <- PyStr.int f3 ;;
  f4 <- PyStr.index fields 3 ;;
  e <- PyStr.int (PyStr.strip f4) ;;
  Ok {| ID := id; gender := g; age := a; city := c; education := e |}.

(** The rows of the secondary frame, taken as Spark has them once it
    evaluates the frame (the RDD behind it is lazy). *)
Definition create_dataframe_for_probability (secondary_file : list string)
  : result (list demo_row) :=
  data <- map_result demo_record secondary_file ;;
  createDataFrame data.

(** *** [get_N_recommendation] *)

Definition friends_exploded (df : list base_row) : list exploded_row :=
  flat_map
    (fun r =>
       map (fun f => {| x_user := b_user r; x_friends := b_friends r; x_friend := f |})
           (b_friends r))
    df.

(** Inner join of the exploded frame with itself on
    [df1.friend == df2.user]. *)
Definition friends_of_friends (fe : list exploded_row) : list fof_row :=
  flat_map
    (fun df1 =>
       map (fun df2 =>
              {| j_user := x_user df1; j_friends := x_friends df1;
                 j_friend := x_friend df1; j_fof := x_friend df2 |})
           (filter (fun df2 => x_friend df1 =? x_user df2) fe))
    fe.

Definition array_contains (l : list Z) (z : Z) : bool := existsb (Z.eqb z) l.

Definition recommendations (ff : list fof_row) : list fof_row :=
  filter (fun r => negb (array_contains (j_friends r) (j_fof r)))
         (filter (fun r => negb (j_user r =? j_fof r)) ff).

Definition key_eq_dec (a b : Z * Z) : {a = b} + {a <> b}.
Proof. decide equality; apply Z.eq_dec. Defined.

Definition same_key (k : Z * Z) (r : fof_row) : bool :=
  ((j_user r =? fst k) && (j_fof r =? snd k))%bool.

(** [groupBy("user", "fof").agg(F.sum("friend"))]. *)
Definition friend_recommendations (recs : list fof_row) : list agg_row :=
  map (fun k =>
         {| g_user := fst k; g_fof := snd k;
            common_friends := Sql.sum (map j_friend (filter (same_key k) recs)) |})
      (nodup key_eq_dec (map (fun r => (j_user r, j_fof r)) recs)).

Section Window.

(** The order Spark gives to rows of equal [common_friends]. *)
Variable tie : Z -> Z -> Z.

Definition tie_of (a : agg_row) : Z := tie (g_user a) (g_fof a).

(** [a] may stand before [b] under [orderBy(common_friends.desc())]. *)
Definition precedes (a b : agg_row) : bool :=
  ((common_friends b <? common_friends a)
   || ((common_friends a =? common_friends b) && (tie_of a <=? tie_of b)))%bool.

Fixpoint insert_row (a : agg_row) (l : list agg_row) : list agg_row :=
  match l with
  | [] => [a]
  | b :: l' => if precedes a b then a :: l else b :: insert_row a l'
  end.

Definition order_by (l : list agg_row) : list agg_row :=
  fold_right insert_row [] l.

(** [F.row_number()]: 1, 2, ... along the ordered partition. *)
Definition row_number (l : list agg_row) : list (agg_row * Z) :=
  combine l (map Z.of_nat (seq 1 (List.length l))).

Definition partition (u : Z) (grouped : list agg_row) : list agg_row :=
  filter (fun g => g_user g =? u) grouped.

(** [withColumn("rank", row_number().over(partitionBy("user").orderBy(...)))]. *)
Definition with_rank (grouped : list agg_row) : list (agg_row * Z) :=
  flat_map (fun u => row_number (order_by (partition u grouped)))
           (nodup Z.eq_dec (map g_user grouped)).

Definition select_user_fof_rank (p : agg_row * Z) : rec_row :=
  {| user := g_user (fst p); fof := g_fof (fst p); rank := snd p |}.

Definition top_n_recommendations (df : list base_row) (N : Z) : list rec_row :=
  map select_user_fof_rank
      (filter (fun p => snd p <=? N)
              (with_rank
                 (friend_recommendations
                    (recommendations (friends_of_friends (friends_exploded df)))))).

Definition get_N_recommendation (base_file : list string) (N : Z)
  : result (list rec_row) :=
  df <- create_dataframe_for_N_recommendation base_file ;;
  Ok (top_n_recommendations df N).

End Window.

(** *** [get_probability] *)

(** Left join on [key r == ID]: every left row is kept, once per match,
    and once with nulls when nothing matches. *)
Definition left_join {A B : Type} (key : A -> Z) (mk : A -> option demo_row -> B)
    (left : list A) (additional_properties : list demo_row) : list B :=
  flat_map
    (fun r =>
       match filter (fun d => key r =? ID d) additional_properties with
       | [] => [mk r None]
       | ms => map (fun d => mk r (Some d)) ms
       end)
    left.

Definition join_demographics (top_n : list rec_row) (ap : list demo_row)
  : list joined_row :=
  left_join (fun p => fof (fst p))
            (fun p d => {| recommendation := fst p; user_props := snd p;
                           potential_friend_props := d |})
            (left_join user (fun r d => (r, d)) top_n ap)
            ap.

Definition user_gender (r : joined_row) := option_map gender (user_props r).
Definition user_age (r : joined_row) := option_map age (user_props r).
Definition user_city (r : joined_row) := option_map city (user_props r).
Definition user_education (r : joined_row) := option_map education (user_props r).
Definition potential_friend_gender (r : joined_row) :=
  option_map gender (potential_friend_props r).
Definition potential_friend_age (r : joined_row) :=
  option_map age (potential_friend_props r).
Definition potential_friend_city (r : joined_row) :=
  option_map city (potential_friend_props r).
Definition potential_friend_education (r : joined_row) :=
  option_map education (potential_friend_props r).

Open Scope float_scope.

(** The first [withColumn("probability", ...)]. *)
Definition gender_step (r : joined_row) : float :=
  if Sql.holds (Sql.eq (user_age r) (potential_friend_gender r)) then 0.3 else 0.1.

Definition age_gap (r : joined_row) : option Z :=
  Sql.abs (Sql.sub (user_age r) (potential_friend_age r)).

Definition age_step (r : joined_row) (p : float) : float :=
  if Sql.holds (Sql.lt (age_gap r) (Some 5%Z)) then p + 0.4
  else if Sql.holds (Sql.lt (age_gap r) (Some 10%Z)) then p + 0.2
  else if Sql.holds (Sql.ge (age_gap r) (Some 10%Z)) then p - 0.2
  else p.

Definition city_step (r : joined_row) (p : float) : float :=
  if Sql.holds (Sql.eq (user_city r) (potential_friend_city r)) then p + 0.5 else p.

Definition education_step (r : joined_row) (p : float) : float :=
  if Sql.holds (Sql.and3 (Sql.eq (user_education r) (Some 1%Z))
                         (Sql.eq (potential_friend_education r) (Some 1%Z)))
  then p + 0.3
  else if Sql.holds (Sql.or3 (Sql.eq (user_education r) (Some 1%Z))
                             (Sql.eq (potential_friend_education r) (Some 1%Z)))
  then p + 0.1
  else p.

(** The last [withColumn]: above 1 gives 1, below 0 gives 0. *)
Definition clamp_step (p : float) : float :=
  if PrimFloat.ltb 1 p then 1 else if PrimFloat.ltb p 0 then 0 else p.

Definition unclamped (r : joined_row) : float :=
  education_step r (city_step r (age_step r (gender_step r))).

Definition score (r : joined_row) : scored_row :=
  {| joined := r; probability := clamp_step (unclamped r) |}.

Close Scope float_scope.

Definition scored_recommendations (top_n : list rec_row) (ap : list demo_row)
  : list scored_row :=
  map score (join_demographics top_n ap).

Definition get_probability (top_n : list rec_row) (secondary_file : list string)
  : result (list scored_row) :=
  additional_properties <- create_dataframe_for_probability secondary_file ;;
  Ok (scored_recommendations top_n additional_properties).

End Model.

(** ** [calculate_recomendations] of [api/models/handlers.py] *)

Module Handlers.

Import Model.

Section Calculate.

Variable tie : Z -> Z -> Z.

(** [str] of a Python float, as the interpreter prints it. *)
Variable str_float : float -> string.

Local Open Scope string_scope.

Definition newline_char : ascii := ascii_of_nat 10.
Definition newline : string := String newline_char EmptyString.

(** [f"{row['user']} {row['fof']}"]. *)
Definition plain_line (r : rec_row) : string :=
  PyStr.str_int (user r) ++ " " ++ PyStr.str_int (fof r).

(** [f"{row['user']} {row['fof']}, {row['probability']}"]. *)
Definition probability_line (r : scored_row) : string :=
  PyStr.str_int (user (recommendation (joined r))) ++ " "
  ++ PyStr.str_int (fof (recommendation (joined r))) ++ ", "
  ++ str_float (probability r).

(** [f.write(line + "\n")] for every line in turn. *)
Definition write_lines (lines : list string) : string :=
  fold_right (fun l text => l ++ newline ++ text) "" lines.

(** The lines written to the result file.  [secondary_file] is [None]
    when [secondary_file_path] is, and else holds the lines found there;
    the test is [secondary_file_path and use_secondary_file]. *)
Definition result_lines (base_file : list string) (use_secondary_file : bool)
    (secondary_file : option (list string)) (N : Z) : result (list string) :=
  result_recommendations <- get_N_recommendation tie base_file N ;;
  match secondary_file with
  | Some sec =>
      if use_secondary_file
      then scored <- get_probability result_recommendations sec ;;
           Ok (map probability_line scored)
      else Ok (map plain_line result_recommendations)
  | None => Ok (map plain_line result_recommendations)
  end.

(** The text of [result_<calculate_id>.txt]. *)
Definition calculate_recomendations (base_file : list string)
    (use_secondary_file : bool) (secondary_file : option (list string)) (N : Z)
  : result string :=
  lines <- result_lines base_file use_secondary_file secondary_file N ;;
  Ok (write_lines lines).

End Calculate.

End Handlers.

(** ** The rules of the scorer in the spec's words *)

Module Rules.

Import Model.

Open Scope float_scope.

(** [clamp(x, 0.0, 1.0)]. *)
Definition clamp01 (x : float) : float :=
  if PrimFloat.ltb x 0 then 0 else if PrimFloat.ltb 1 x then 1 else x.

(** The gender rule as the docstring of [get_probability] words it. *)
Definition gender_rule (user_gender potential_friend_gender : Z) : float :=
  if (user_gender =? potential_friend_gender)%Z then 0.3 else 0.1.

(** The four rule terms for the records of a user and a candidate:
    gender match or mismatch; age difference below 5, below 10, or from
    10 on; same city; both, exactly one, or none with higher education. *)
Definition gender_term (u c : demo_row) : float :=
  gender_rule (gender u) (gender c).

Definition age_term (u c : demo_row) : float :=
  if (Z.abs (age u - age c) <? 5)%Z then 0.4
  else if (Z.abs (age u - age c) <? 10)%Z then 0.2
  else -0.2.

Definition city_term (u c : demo_row) : float :=
  if (city u =? city c)%Z then 0.5 else 0.

Definition education_term (u c : demo_row) : float :=
  if ((education u =? 1) && (education c =? 1))%Z%bool then 0.3
  else if xorb (education u =? 1)%Z (education c =? 1)%Z then 0.1
  else 0.

Definition rule_sum (u c : demo_row) : float :=
  gender_term u c + age_term u c + city_term u c + education_term u c.

Close Scope float_scope.

End Rules.

(** ** Concrete inputs used below *)

Module Examples.

Import Model.

Local Open Scope string_scope.

(** A pair with equal genders and equal ages in different cities. *)
Definition same_gender_user : demo_row :=
  {| ID := 1; gender := 1; age := 25; city := 1; education := 0 |}.
Definition same_gender_friend : demo_row :=
  {| ID := 3; gender := 1; age := 25; city := 2; education := 0 |}.
Definition same_gender_pair : joined_row :=
  {| recommendation := {| user := 1; fof := 3; rank := 1 |};
     user_props := Some same_gender_user;
     potential_friend_props := Some same_gender_friend |}.

(** A pair whose every rule gives its largest term. *)
Definition twin : demo_row :=
  {| ID := 1; gender := 1; age := 1; city := 7; education := 1 |}.
Definition twin_pair : joined_row :=
  {| recommendation := {| user := 1; fof := 1; rank := 1 |};
     user_props := Some twin; potential_friend_props := Some twin |}.

(** Scenario B of the spec and a secondary file that knows user 1 only. *)
Definition chain_file : list string := ["1 2"; "2 1,3"; "3 2"].
Definition chain_top : list rec_row :=
  [{| user := 1; fof := 3; rank := 1 |}; {| user := 3; fof := 1; rank := 1 |}].
Definition only_user_1 : list demo_row :=
  [{| ID := 1; gender := 1; age := 25; city := 3; education := 1 |}].

Definition chain_df : list base_row :=
  [{| b_user := 1; b_friends := [2] |}; {| b_user := 2; b_friends := [1; 3] |};
   {| b_user := 3; b_friends := [2] |}].

(** User 1 reaches 4 through friends 2 and 3, and 5 through friend 9. *)
Definition fan_file : list string := ["1 2,3,9"; "2 4"; "3 4"; "9 5"].
Definition fan_df : list base_row :=
  [{| b_user := 1; b_friends := [2; 3; 9] |}; {| b_user := 2; b_friends := [4] |};
   {| b_user := 3; b_friends := [4] |}; {| b_user := 9; b_friends := [5] |}].

(** User 1 reaches 7 and 3 through friend 2 alone. *)
Definition pair_df : list base_row :=
  [{| b_user := 1; b_friends := [2] |}; {| b_user := 2; b_friends := [7; 3] |}].

(** The window puts the larger candidate first among ties. *)
Definition larger_first (u f : Z) : Z := - f.

(** The window keeps the arrival order among ties. *)
Definition arrival (u f : Z) : Z := 0.

(** A float printer for three values. *)
Definition sample_str_float (p : float) : string :=
  if PrimFloat.eqb p 1 then "1.0" else if PrimFloat.eqb p 0 then "0.0" else "0.5".

(** A base file that names user 1 on two lines. *)
Definition twice_1 : list string := ["1 2"; "1 3"].

End Examples.

(** ** Vocabulary of the statements *)

Module Facts.

Import Model.

(** The secondary DataFrame holds a record for [k]. *)
Definition has_record (ap : list demo_row) (k : Z) : bool :=
  existsb (fun d => k =? ID d) ap.

(** What one side of a joined row holds for the key it was joined on. *)
Definition side_ok (ap : list demo_row) (k : Z) (props : option demo_row) : Prop :=
  match props with
  | None => has_record ap k = false
  | Some d => In d ap /\ k = ID d
  end.

(** The education code of the one record that is present. *)
Definition present_education (j : joined_row) : bool :=
  match user_props j, potential_friend_props j with
  | Some d, None | None, Some d => education d =? 1
  | _, _ => false
  end.

(** The rows left after the two filters of [get_N_recommendation]. *)
Definition candidate_rows (df : list base_row) : list fof_row :=
  recommendations (friends_of_friends (friends_exploded df)).

(** The value [agg(F.sum("friend"))] gives the group of the pair (u, c). *)
Definition aggregate (df : list base_row) (u c : Z) : Z :=
  Sql.sum (map j_friend (filter (same_key (u, c)) (candidate_rows df))).

(** friends(u): the friend list on the line of [u]. *)
Definition friends_of (df : list base_row) (u : Z) : list Z :=
  match find (fun l => b_user l =? u) df with
  | Some l => b_friends l
  | None => []
  end.

(** commonFriendCount(u, c) = |{f : f in friends(u) and c in friends(f)}|. *)
Definition common_friend_count (df : list base_row) (u c : Z) : Z :=
  Z.of_nat (List.length
              (nodup Z.eq_dec
                 (filter (fun f => array_contains (friends_of df f) c)
                         (friends_of df u)))).

(** [c] is reached from a line of [u] in two hops, is not [u] and is not
    on that line. *)
Definition is_eligible (df : list base_row) (u c : Z) : Prop :=
  exists l1 l2 f,
    In l1 df /\ In l2 df /\ b_user l1 = u /\ In f (b_friends l1)
    /\ b_user l2 = f /\ In c (b_friends l2)
    /\ u <> c /\ ~ In c (b_friends l1).

(** The eligible candidates of [u], each once. *)
Definition eligible (df : list base_row) (u : Z) : list Z :=
  nodup Z.eq_dec
    (flat_map
       (fun l1 =>
          if b_user l1 =? u
          then filter (fun c => (negb (u =? c) && negb (array_contains (b_friends l1) c))%bool)
                      (flat_map
                         (fun f => flat_map
                                     (fun l2 => if b_user l2 =? f then b_friends l2 else [])
                                     df)
                         (b_friends l1))
          else [])
       df).

(** The candidates of the groups of user [u], in the order of the groups. *)
Definition group_candidates (u : Z) (recs : list fof_row) : list Z :=
  map snd (filter (fun k => fst k =? u)
                  (nodup key_eq_dec (map (fun r => (j_user r, j_fof r)) recs))).

(** The order [orderBy(common_friends.desc())] asks for. *)
Definition at_least (a b : agg_row) : Prop := common_friends b <= common_friends a.

(** The same order on candidates, by the aggregated value of their group. *)
Definition by_aggregate (df : list base_row) (u c1 c2 : Z) : Prop :=
  aggregate df u c2 <= aggregate df u c1.

(** The order of the spec on the rows of a result: within a user, a
    smaller rank goes with a larger commonFriendCount, or with an equal
    one and a smaller candidate. *)
Definition ordered_as_specified (df : list base_row) (out : list rec_row) : bool :=
  forallb
    (fun r1 =>
       forallb
         (fun r2 =>
            implb ((user r1 =? user r2) && (rank r1 <? rank r2))
                  ((common_friend_count df (user r2) (fof r2)
                    <? common_friend_count df (user r1) (fof r1))
                   || ((common_friend_count df (user r1) (fof r1)
                        =? common_friend_count df (user r2) (fof r2))
                       && (fof r1 <? fof r2))))
         out)
    out.

(** The rows of one user in a result. *)
Definition rows_of (u : Z) (out : list rec_row) : list rec_row :=
  filter (fun r => user r =? u) out.

(** The ranks 1, 2, ..., n. *)
Definition ranks_upto (n : Z) : list Z := map Z.of_nat (seq 1 (Z.to_nat n)).

(** Every character of [s] passes [P]. *)
Fixpoint all_chars (P : ascii -> bool) (s : string) : bool :=
  match s with
  | EmptyString => true
  | String c rest => (P c && all_chars P rest)%bool
  end.

Fixpoint last_char (s : string) : option ascii :=
  match s with
  | EmptyString => None
  | String c EmptyString => Some c
  | String _ rest => last_char rest
  end.

Definition is_digit (c : ascii) : bool :=
  match PyStr.digit_of c with
  | Some _ => true
  | None => false
  end.

(** A line that does not end in white space (and is not empty). *)
Definition no_trailing_space (s : string) : Prop :=
  exists c, last_char s = Some c /\ PyStr.is_space c = false.

(** A text without white space in it, and not empty. *)
Definition solid (s : string) : Prop :=
  s <> EmptyString /\ all_chars (fun c => negb (PyStr.is_space c)) s = true.

End Facts.

(** ** The text of well-formed input lines *)

Module Lines.

Import Model.

Local Open Scope string_scope.

(** The value of a decimal numeral read from the left, after [acc]. *)
Fixpoint value (acc : Z) (d : Decimal.uint) : Z :=
  match d with
  | Decimal.Nil => acc
  | Decimal.D0 d => value (10 * acc + 0) d
  | Decimal.D1 d => value (10 * acc + 1) d
  | Decimal.D2 d => value (10 * acc + 2) d
  | Decimal.D3 d => value (10 * acc + 3) d
  | Decimal.D4 d => value (10 * acc + 4) d
  | Decimal.D5 d => value (10 * acc + 5) d
  | Decimal.D6 d => value (10 * acc + 6) d
  | Decimal.D7 d => value (10 * acc + 7) d
  | Decimal.D8 d => value (10 * acc + 8) d
  | Decimal.D9 d => value (10 * acc + 9) d
  end.

(** A text of white space only. *)
Definition blank (s : string) : Prop := Facts.all_chars PyStr.is_space s = true.

(** A text of the white space that [int] skips. *)
Definition padding (s : string) : Prop := Facts.all_chars PyStr.is_c_space s = true.

(** Friend ids separated by a comma and the padding [pad]. *)
Fixpoint friend_list (pad : string) (fs : list Z) : string :=
  match fs with
  | [] => ""
  | [f] => PyStr.str_int f
  | f :: rest => PyStr.str_int f ++ "," ++ pad ++ friend_list pad rest
  end.

(** A line of the base file: [<user> <friend>,<friend>,...]. *)
Definition base_line (pad : string) (r : base_row) : string :=
  PyStr.str_int (b_user r) ++ " " ++ friend_list pad (b_friends r).

(** A line of the secondary file: [<ID> <gender>, <age>, <city>, <education>]. *)
Definition demo_line (d : demo_row) : string :=
  PyStr.str_int (ID d) ++ " " ++ PyStr.str_int (gender d) ++ ", "
  ++ PyStr.str_int (age d) ++ ", " ++ PyStr.str_int (city d) ++ ", "
  ++ PyStr.str_int (education d).

(** The base row a recommendation stands for when read as a base line. *)
Definition as_base_row (r : rec_row) : base_row :=
  {| b_user := user r; b_friends := [fof r] |}.

(** Every friendship declared on a line is declared back on the line of
    the friend. *)
Definition symmetric (df : list base_row) : Prop :=
  forall l1 f, In l1 df -> In f (b_friends l1) ->
    exists l2, In l2 df /\ b_user l2 = f /\ In (b_user l1) (b_friends l2).

Definition symmetricb (df : list base_row) : bool :=
  forallb
    (fun l1 =>
       forallb
         (fun f =>
            existsb (fun l2 => (Z.eqb (b_user l2) f
                                && array_contains (b_friends l2) (b_user l1))%bool)
                    df)
         (b_friends l1))
    df.

(** The ranks of the rows of user [u] in a result, each with the value
    aggregated for the group of its candidate. *)
Definition rank_profile (df : list base_row) (u : Z) (out : list rec_row)
  : list (Z * Z) :=
  map (fun r => (rank r, Facts.aggregate df u (fof r))) (Facts.rows_of u out).

(** The window puts the smaller candidate first among ties. *)
Definition smaller_first (u f : Z) : Z := f.

(** [s] does not hold the character [c]. *)
Definition lacks (c : ascii) (s : string) : Prop :=
  Facts.all_chars (fun x => negb (Ascii.eqb x c)) s = true.

End Lines.

(** ** The job shell of [api/models/handlers.py]

    The uploaded files are written under INPUT_FOLDER by [start_calculate]
    and read back by the background task; the model hands their lines to
    the task.  The fresh [uuid4] is an argument.  A task runs in one
    step. *)

Module Jobs.

Local Open Scope string_scope.

(** A Python dict with string keys, or the files of a folder by name. *)
Definition dict (V : Type) : Type := string -> option V.

Definition empty {V : Type} : dict V := fun _ => None.

Definition set {V : Type} (k : string) (v : V) (d : dict V) : dict V :=
  fun k' => if String.eqb k' k then Some v else d k'.

(** The global [calculate_status] and the files of OUTPUT_FOLDER. *)
Record state : Type :=
  { calculate_status : dict string; output_folder : dict string }.

Definition initial : state :=
  {| calculate_status := empty; output_folder := empty |}.

Definition set_status (calculate_id status : string) (st : state) : state :=
  {| calculate_status := set calculate_id status (calculate_status st);
     output_folder := output_folder st |}.

Definition write_file (name text : string) (st : state) : state :=
  {| calculate_status := calculate_status st;
     output_folder := set name text (output_folder st) |}.

(** [f"result_{calculate_id}.txt"]. *)
Definition result_name (calculate_id : string) : string :=
  "result_" ++ calculate_id ++ ".txt".

(** The arguments of the background task. *)
Record task : Type :=
  { t_calculate_id : string;
    t_base_file : list string;
    t_use_secondary_file : bool;
    t_secondary_file : option (list string);
    t_N : Z }.

(** [start_calculate]: the response is the [calculate_id]; the secondary
    file is kept only under [use_secondary_file and secondary_file]. *)
Definition start_calculate (calculate_id : string) (base_file : list string)
    (secondary_file : option (list string)) (use_secondary_file : bool) (N : Z)
    (st : state) : string * task * state :=
  let secondary_file_path := if use_secondary_file then secondary_file else None in
  (calculate_id,
   {| t_calculate_id := calculate_id; t_base_file := base_file;
      t_use_secondary_file := use_secondary_file;
      t_secondary_file := secondary_file_path; t_N := N |},
   set_status calculate_id "pending" st).

(** The JSON object of [get_calculate_status]; [file_url] may be absent. *)
Record status_response : Type :=
  { task_id : string; status : string; file_url : option string }.

Definition get_calculate_status (calculate_id : string) (st : state)
  : status_response :=
  let status :=
    match calculate_status st calculate_id with
    | Some v => v
    | None => "not_found"
    end in
  if String.eqb status "completed"
  then {| task_id := calculate_id; status := status;
          file_url := Some ("/output/" ++ calculate_id) |}
  else {| task_id := calculate_id; status := status; file_url := None |}.

(** [FileResponse(file_path, filename=...)] or [{"error": "File not found"}]. *)
Inductive download_response : Type :=
| FileResponse (content filename : string)
| FileNotFound.

Definition download_file (calculate_id : string) (st : state) : download_response :=
  match output_folder st (result_name calculate_id) with
  | Some content => FileResponse content (result_name calculate_id)
  | None => FileNotFound
  end.

Section Task.

Variable tie : Z -> Z -> Z.
Variable str_float : float -> string.

(** What the task computes before it opens the result file. *)
Definition task_text (t : task) : result string :=
  Handlers.calculate_recomendations tie str_float (t_base_file t)
    (t_use_secondary_file t) (t_secondary_file t) (t_N t).

(** [calculate_recomendations] as the background task: the status is set
    to in_progress; when the computation raises, nothing more happens. *)
Definition calculate_recomendations_task (t : task) (st : state)
  : option py_error * state :=
  let st1 := set_status (t_calculate_id t) "in_progress" st in
  match task_text t with
  | Ok text =>
      (None,
       set_status (t_calculate_id t) "completed"
         (write_file (result_name (t_calculate_id t)) text st1))
  | Raise e => (Some e, st1)
  end.

(** The states the server can be in. *)
Inductive reachable : state -> Prop :=
| reach_initial : reachable initial
| reach_start (calculate_id : string) (base_file : list string)
    (secondary_file : option (list string)) (use_secondary_file : bool) (N : Z)
    (st : state) :
    reachable st ->
    reachable (snd (start_calculate calculate_id base_file secondary_file
                      use_secondary_file N st))
| reach_task (t : task) (st : state) :
    reachable st -> reachable (snd (calculate_recomendations_task t st)).

End Task.

End Jobs.

Module JobExamples.

Local Open Scope string_scope.

(** A job on the chain of scenario B, and a job on an empty base file. *)
Definition chain_task (calculate_id : string) : Jobs.task :=
  {| Jobs.t_calculate_id := calculate_id;
     Jobs.t_base_file := Examples.chain_file;
     Jobs.t_use_secondary_file := false; Jobs.t_secondary_file := None;
     Jobs.t_N := 1 |}.
Definition empty_task (calculate_id : string) : Jobs.task :=
  {| Jobs.t_calculate_id := calculate_id; Jobs.t_base_file := [];
     Jobs.t_use_secondary_file := false; Jobs.t_secondary_file := None;
     Jobs.t_N := 1 |}.

(** The state after job "a" has run on the chain. *)
Definition after_chain : Jobs.state :=
  snd (Jobs.calculate_recomendations_task Examples.arrival
         Examples.sample_str_float (chain_task "a") Jobs.initial).

(** A secondary file with a line that cannot be read. *)
Definition broken_secondary : list string := ["no numbers here"].

End JobExamples.

(** * Theorems *)

Import Model Facts.

(** ** The engine *)

Section Engine.

Variable tie : Z -> Z -> Z.

Lemma array_contains_In (l : list Z) (z : Z) :
  array_contains l z = true <-> In z l.
Proof.
  unfold array_contains. rewrite existsb_exists. split.
  - intros (x & Hx & He). apply Z.eqb_eq in He. subst. exact Hx.
  - intros H. exists z. split; [exact H | apply Z.eqb_refl].
Qed.

Lemma array_contains_not_In (l : list Z) (z : Z) :
  array_contains l z = false <-> ~ In z l.
Proof.
  rewrite <- array_contains_In. destruct (array_contains l z); split; congruence.
Qed.

Lemma in_friends_exploded (df : list base_row) (x : exploded_row) :
  In x (friends_exploded df) <->
  exists l, In l df /\ x_user x = b_user l /\ x_friends x = b_friends l
            /\ In (x_friend x) (b_friends l).
Proof.
  unfold friends_exploded. rewrite in_flat_map. split.
  - intros (l & Hl & Hx). apply in_map_iff in Hx. destruct Hx as (f & <- & Hf).
    exists l. cbn. auto.
  - intros (l & Hl & Hu & Hfs & Hf). exists l. split; [exact Hl |].
    apply in_map_iff. exists (x_friend x). split; [| exact Hf].
    destruct x; cbn in *; subst; reflexivity.
Qed.

Lemma in_candidate_rows (df : list base_row) (r : fof_row) :
  In r (candidate_rows df) <->
  (exists l1 l2,
      In l1 df /\ In l2 df /\ j_user r = b_user l1 /\ j_friends r = b_friends l1
      /\ In (j_friend r) (b_friends l1)
      /\ b_user l2 = j_friend r /\ In (j_fof r) (b_friends l2))
  /\ j_user r <> j_fof r /\ ~ In (j_fof r) (j_friends r).
Proof.
  unfold candidate_rows, recommendations, friends_of_friends.
  rewrite !filter_In, in_flat_map, negb_true_iff, negb_true_iff,
    array_contains_not_In, Z.eqb_neq.
  split.
  - intros [[(x1 & Hx1 & Hr) Hne] Hnot]. split; [| split; assumption].
    apply in_map_iff in Hr. destruct Hr as (x2 & <- & Hx2).
    apply filter_In in Hx2. destruct Hx2 as [Hx2 Hk]. apply Z.eqb_eq in Hk.
    apply in_friends_exploded in Hx1. destruct Hx1 as (l1 & Hl1 & Hu1 & Hf1 & Hi1).
    apply in_friends_exploded in Hx2. destruct Hx2 as (l2 & Hl2 & Hu2 & Hf2 & Hi2).
    exists l1, l2. cbn. repeat split; try assumption. congruence.
  - intros [(l1 & l2 & Hl1 & Hl2 & Hu & Hfs & Hf & Hk & Hc) [Hne Hnot]].
    split; [split |]; try assumption.
    exists {| x_user := b_user l1; x_friends := b_friends l1; x_friend := j_friend r |}.
    split.
    + apply in_friends_exploded. exists l1. cbn. auto.
    + apply in_map_iff.
      exists {| x_user := b_user l2; x_friends := b_friends l2; x_friend := j_fof r |}.
      cbn. split.
      * destruct r; cbn in *; subst; reflexivity.
      * apply filter_In. split; [| cbn; lia].
        apply in_friends_exploded. exists l2. cbn. auto.
Qed.

Lemma in_friend_recommendations (recs : list fof_row) (a : agg_row) :
  In a (friend_recommendations recs) <->
  (exists r, In r recs /\ j_user r = g_user a /\ j_fof r = g_fof a)
  /\ common_friends a
     = Sql.sum (map j_friend (filter (same_key (g_user a, g_fof a)) recs)).
Proof.
  unfold friend_recommendations. rewrite in_map_iff. split.
  - intros ([u c] & <- & Hk). apply nodup_In, in_map_iff in Hk.
    destruct Hk as (r & Hr & Hin). inversion Hr; subst. cbn. split; [| reflexivity].
    exists r. auto.
  - intros [(r & Hin & Hu & Hc) Hsum]. exists (g_user a, g_fof a). split.
    + destruct a; cbn in *. subst. reflexivity.
    + apply nodup_In, in_map_iff. exists r. split; [congruence | exact Hin].
Qed.

(** *** The window *)

Lemma insert_row_perm (a : agg_row) (l : list agg_row) :
  Permutation (insert_row tie a l) (a :: l).
Proof.
  induction l as [| b l IH]; cbn; [reflexivity |].
  destruct (precedes tie a b); [reflexivity |].
  rewrite IH. apply perm_swap.
Qed.

Lemma order_by_perm (l : list agg_row) : Permutation (order_by tie l) l.
Proof.
  induction l as [| a l IH]; cbn; [reflexivity |].
  rewrite insert_row_perm. apply perm_skip, IH.
Qed.

Lemma in_row_number (l : list agg_row) (a : agg_row) (k : Z) :
  In (a, k) (row_number l) -> In a l /\ 1 <= k.
Proof.
  unfold row_number. intros H. split.
  - eapply in_combine_l, H.
  - apply in_combine_r in H. apply in_map_iff in H.
    destruct H as (n & <- & Hn). apply in_seq in Hn. lia.
Qed.

Lemma in_with_rank (grouped : list agg_row) (a : agg_row) (k : Z) :
  In (a, k) (with_rank tie grouped) -> In a grouped /\ 1 <= k.
Proof.
  unfold with_rank. rewrite in_flat_map. intros (u & _ & H).
  apply in_row_number in H. destruct H as [H Hk]. split; [| exact Hk].
  apply (Permutation_in _ (order_by_perm _)) in H.
  apply filter_In in H. tauto.
Qed.

Lemma in_top_n_recommendations (df : list base_row) (N : Z) (row : rec_row) :
  In row (top_n_recommendations tie df N) ->
  1 <= rank row <= N
  /\ exists r, In r (candidate_rows df) /\ j_user r = user row /\ j_fof r = fof row.
Proof.
  unfold top_n_recommendations. rewrite in_map_iff.
  intros ([a k] & <- & H). apply filter_In in H. destruct H as [H HN].
  apply in_with_rank in H. destruct H as [H Hk]. cbn in *.
  split; [lia |]. apply in_friend_recommendations in H. tauto.
Qed.

Lemma unique_line (df : list base_row) (l1 l2 : base_row) :
  NoDup (map b_user df) -> In l1 df -> In l2 df -> b_user l1 = b_user l2 -> l1 = l2.
Proof.
  induction df as [| l df IH]; intros Hnd H1 H2 He; [destruct H1 |].
  inversion Hnd as [| ? ? Hnot Hnd']; subst.
  destruct H1 as [-> | H1], H2 as [-> | H2]; auto.
  - exfalso. apply Hnot. rewrite He. apply in_map, H2.
  - exfalso. apply Hnot. rewrite <- He. apply in_map, H1.
Qed.

Lemma friends_of_line (df : list base_row) (l : base_row) :
  NoDup (map b_user df) -> In l df -> friends_of df (b_user l) = b_friends l.
Proof.
  intros Hnd Hl. unfold friends_of.
  destruct (find (fun l0 => b_user l0 =? b_user l) df) as [l' |] eqn:E.
  - apply find_some in E. destruct E as [Hl' He]. apply Z.eqb_eq in He.
    rewrite (unique_line df l' l Hnd Hl' Hl He). reflexivity.
  - exfalso. apply (find_none _ _ E) in Hl. apply Z.eqb_neq in Hl. congruence.
Qed.

End Engine.

(** Scenario A of the spec: in a triangle nobody is recommended. *)
Example triangle_has_no_recommendation :
  get_N_recommendation Examples.arrival ["1 2,3"; "2 1,3"; "3 1,2"]%string 2 = Ok [].
Proof. reflexivity. Qed.

(** Scenario B of the spec: the two ends of a chain are recommended to
    each other. *)
Example chain_recommends_its_ends :
  get_N_recommendation Examples.arrival Examples.chain_file 1
  = Ok Examples.chain_top.
Proof. reflexivity. Qed.

Example chain_result_file :
  Handlers.calculate_recomendations Examples.arrival Examples.sample_str_float
    Examples.chain_file false None 1
  = Ok (String "1" (String " " (String "3" (String Handlers.newline_char
       (String "3" (String " " (String "1" Handlers.newline))))))).
Proof. reflexivity. Qed.

(** C5: when every user has one line in the base file, a row (user, fof)
    of the result has [fof <> user], and [fof] is not in the friend list
    on the user's line, whatever N and whatever the order among ties. *)
Theorem recommended_is_no_friend (tie : Z -> Z -> Z) (df : list base_row) (N : Z)
    (row : rec_row)
    (Hkeys : NoDup (map b_user df))
    (Hrow : In row (top_n_recommendations tie df N)) :
  fof row <> user row
  /\ (exists l, In l df /\ b_user l = user row)
  /\ ~ In (fof row) (friends_of df (user row)).
Proof.
  apply in_top_n_recommendations in Hrow. destruct Hrow as [_ (r & Hr & Hu & Hf)].
  apply in_candidate_rows in Hr.
  destruct Hr as [(l1 & l2 & Hl1 & _ & Hu1 & Hfs & _) [Hne Hnot]].
  rewrite <- Hu, <- Hf. split; [congruence |]. split.
  - exists l1. split; [exact Hl1 | congruence].
  - rewrite Hu1, (friends_of_line df l1 Hkeys Hl1), <- Hfs. exact Hnot.
Qed.

Lemma recommended_is_no_friend_witness :
  3 <> 1
  /\ (exists l, In l Examples.chain_df /\ b_user l = 1)
  /\ ~ In 3 (friends_of Examples.chain_df 1).
Proof.
  apply (recommended_is_no_friend Examples.arrival Examples.chain_df 1
           {| user := 1; fof := 3; rank := 1 |}).
  - cbn. repeat constructor; cbn; intuition lia.
  - left. reflexivity.
Defined.

(** ** Reading the base file *)

Lemma map_result_ok {A B : Type} (f : A -> result B) (l : list A) (rows : list B) :
  map_result f l = Ok rows <-> Forall2 (fun x y => f x = Ok y) l rows.
Proof.
  revert rows. induction l as [| x l IH]; intros rows; cbn.
  - split; [intros [= <-]; constructor | intros H; inversion H; reflexivity].
  - destruct (f x) as [y | e] eqn:Ex; cbn.
    + destruct (map_result f l) as [ys | e] eqn:El; cbn.
      * split.
        -- intros [= <-]. constructor; [exact Ex | apply IH; reflexivity].
        -- intros H. inversion H as [| ? y' ? ys' Hy Hys]; subst.
           apply IH in Hys. congruence.
      * split; [discriminate |].
        intros H. inversion H as [| ? y' ? ys' Hy Hys]; subst.
        apply IH in Hys. discriminate.
    + split; [discriminate |].
      intros H. inversion H; subst. congruence.
Qed.

(** C4 (counterexample): a base file whose two lines both have the key 1
    is read without an error, into two rows. *)
Lemma duplicate_key_is_read :
  create_dataframe_for_N_recommendation Examples.twice_1
  = Ok [{| b_user := 1; b_friends := [2] |}; {| b_user := 1; b_friends := [3] |}].
Proof. reflexivity. Qed.

(** C4 (amended): reading the base file succeeds exactly when the file is
    not empty and every line is well formed on its own; the frame then has
    one row per line, in line order, also when lines share their UserId. *)
Theorem base_file_is_read_line_by_line (base_file : list string)
    (rows : list base_row) :
  create_dataframe_for_N_recommendation base_file = Ok rows
  <-> base_file <> []
      /\ Forall2 (fun line r => friend_pair line = Ok r) base_file rows.
Proof.
  unfold create_dataframe_for_N_recommendation.
  destruct (map_result friend_pair base_file) as [data | e] eqn:E; cbn.
  - apply map_result_ok in E. split.
    + destruct data as [| r data]; cbn; [discriminate |]. intros [= <-].
      split; [| exact E]. inversion E; discriminate.
    + intros [Hne H]. apply map_result_ok in H.
      apply map_result_ok in E. rewrite E in H. injection H as ->.
      destruct rows; cbn; [| reflexivity].
      destruct base_file as [| line base_file]; [congruence | cbn in E].
      destruct (friend_pair line); cbn in E; [| discriminate].
      destruct (map_result friend_pair base_file); discriminate.
  - split; [discriminate |]. intros [_ H]. apply map_result_ok in H. congruence.
Qed.

(** ** N below 1 *)

Lemma top_n_below_one (tie : Z -> Z -> Z) (df : list base_row) (N : Z) :
  N < 1 -> top_n_recommendations tie df N = [].
Proof.
  intros HN. destruct (top_n_recommendations tie df N) as [| row rest] eqn:E;
    [reflexivity |].
  assert (H : In row (top_n_recommendations tie df N)) by (rewrite E; now left).
  apply in_top_n_recommendations in H. lia.
Qed.

(** C3 (counterexample): with N = 0 the computation on the three-line
    file of scenario B raises nothing and returns the empty frame. *)
Lemma zero_N_returns_empty :
  get_N_recommendation Examples.arrival Examples.chain_file 0 = Ok []
  /\ ~ exists e, get_N_recommendation Examples.arrival Examples.chain_file 0 = Raise e.
Proof. split; [reflexivity | intros [e H]; discriminate H]. Qed.

(** C3 (amended): for N < 1 the computation does what it does for any N,
    without a check of N: it raises only what reading the base file
    raises, and otherwise returns the empty frame. *)
Theorem below_one_N_gives_empty (tie : Z -> Z -> Z) (base_file : list string) (N : Z)
    (HN : N < 1) :
  get_N_recommendation tie base_file N
  = (df <- create_dataframe_for_N_recommendation base_file ;; Ok []).
Proof.
  unfold get_N_recommendation.
  destruct (create_dataframe_for_N_recommendation base_file) as [df | e]; cbn;
    [| reflexivity].
  rewrite top_n_below_one by exact HN. reflexivity.
Qed.

Lemma below_one_N_gives_empty_witness :
  get_N_recommendation Examples.arrival Examples.chain_file (-3) = Ok [].
Proof.
  apply (below_one_N_gives_empty Examples.arrival Examples.chain_file (-3)). lia.
Defined.

(** ** Ranks *)

Section Ranking.

Variable tie : Z -> Z -> Z.

Lemma filter_all {A : Type} (f : A -> bool) (l : list A) :
  (forall x, In x l -> f x = true) -> filter f l = l.
Proof.
  induction l as [| x l IH]; intros H; cbn; [reflexivity |].
  rewrite (H x (or_introl eq_refl)), IH; [reflexivity |].
  intros y Hy. apply H. now right.
Qed.

Lemma filter_none {A : Type} (f : A -> bool) (l : list A) :
  (forall x, In x l -> f x = false) -> filter f l = [].
Proof.
  induction l as [| x l IH]; intros H; cbn; [reflexivity |].
  rewrite (H x (or_introl eq_refl)). apply IH.
  intros y Hy. apply H. now right.
Qed.

(** A frame laid out partition by partition: the rows of one key are the
    partition of that key. *)
Lemma filter_partitions {A : Type} (key : A -> Z) (chunk : Z -> list A)
    (users : list Z) (u : Z) :
  NoDup users ->
  (forall u' p, In p (chunk u') -> key p = u') ->
  (~ In u users -> chunk u = []) ->
  filter (fun p => key p =? u) (flat_map chunk users) = chunk u.
Proof.
  intros Hnd Hkey. induction users as [| x users IH]; intros Hout; cbn.
  - symmetry. apply Hout. intros [].
  - inversion Hnd as [| ? ? Hx Hnd']; subst. rewrite filter_app.
    destruct (Z.eq_dec x u) as [-> | Hne].
    + rewrite filter_all.
      * rewrite filter_none; [apply app_nil_r |].
        intros p Hp. apply in_flat_map in Hp. destruct Hp as (u' & Hu' & Hp).
        apply Hkey in Hp. apply Z.eqb_neq. intros E. apply Hx. congruence.
      * intros p Hp. apply Hkey in Hp. apply Z.eqb_eq, Hp.
    + rewrite filter_none.
      * apply IH; [exact Hnd' |]. intros Hnot. apply Hout. intros [E | Hin]; auto.
      * intros p Hp. apply Hkey in Hp. apply Z.eqb_neq. congruence.
Qed.

(** [rank <= N] keeps a prefix of the numbered partition. *)
Lemma filter_rank_from (l : list agg_row) (N : Z) (s : nat) :
  filter (fun p : agg_row * Z => snd p <=? N)
         (combine l (map Z.of_nat (seq s (List.length l))))
  = combine (firstn (Nat.min (List.length l) (Z.to_nat (N - Z.of_nat s + 1))) l)
            (map Z.of_nat
                 (seq s (Nat.min (List.length l) (Z.to_nat (N - Z.of_nat s + 1))))).
Proof.
  revert s. induction l as [| a l IH]; intros s; [reflexivity |].
  cbn [List.length seq map combine filter snd].
  rewrite IH. destruct (Z.leb_spec (Z.of_nat s) N) as [Hle | Hgt].
  - replace (Z.to_nat (N - Z.of_nat s + 1))
      with (S (Z.to_nat (N - Z.of_nat (S s) + 1))) by lia.
    reflexivity.
  - replace (Z.to_nat (N - Z.of_nat (S s) + 1)) with 0%nat by lia.
    replace (Z.to_nat (N - Z.of_nat s + 1)) with 0%nat by lia.
    rewrite !Nat.min_0_r. reflexivity.
Qed.

Lemma filter_rank (l : list agg_row) (N : Z) :
  filter (fun p : agg_row * Z => snd p <=? N) (row_number l)
  = combine (firstn (Z.to_nat (Z.min N (Z.of_nat (List.length l)))) l)
            (ranks_upto (Z.min N (Z.of_nat (List.length l)))).
Proof.
  unfold row_number, ranks_upto. rewrite filter_rank_from.
  replace (Nat.min (List.length l) (Z.to_nat (N - Z.of_nat 1 + 1)))
    with (Z.to_nat (Z.min N (Z.of_nat (List.length l)))) by lia.
  reflexivity.
Qed.

(** *** The order of a partition *)

Lemma insert_row_sorted (a : agg_row) (l : list agg_row) :
  StronglySorted at_least l -> StronglySorted at_least (insert_row tie a l).
Proof.
  induction 1 as [| b l Hl IH Hb]; cbn.
  - constructor; [constructor | constructor].
  - destruct (precedes tie a b) eqn:E.
    + assert (Hab : at_least a b).
      { unfold at_least, precedes in *. lia. }
      constructor; [constructor; assumption |].
      constructor; [exact Hab |].
      eapply Forall_impl; [| exact Hb]. unfold at_least in *. intros c Hc. lia.
    + assert (Hba : at_least b a).
      { unfold at_least, precedes in *. lia. }
      constructor; [exact IH |].
      eapply Permutation_Forall; [symmetry; apply insert_row_perm |].
      constructor; assumption.
Qed.

Lemma order_by_sorted (l : list agg_row) : StronglySorted at_least (order_by tie l).
Proof.
  induction l as [| a l IH]; cbn; [constructor | apply insert_row_sorted, IH].
Qed.

(** *** The groups of one user *)

Lemma partition_grouped (recs : list fof_row) (u : Z) :
  partition u (friend_recommendations recs)
  = map (fun c => {| g_user := u; g_fof := c;
                     common_friends :=
                       Sql.sum (map j_friend (filter (same_key (u, c)) recs)) |})
        (group_candidates u recs).
Proof.
  unfold partition, friend_recommendations, group_candidates.
  induction (nodup key_eq_dec (map (fun r => (j_user r, j_fof r)) recs))
    as [| [u' c] keys IH]; [reflexivity |].
  cbn. destruct (Z.eqb_spec u' u) as [-> | Hne]; cbn; rewrite IH; reflexivity.
Qed.

Lemma group_candidates_spec (recs : list fof_row) (u : Z) :
  NoDup (group_candidates u recs)
  /\ forall c, In c (group_candidates u recs)
               <-> exists r, In r recs /\ j_user r = u /\ j_fof r = c.
Proof.
  unfold group_candidates. split.
  - apply Finite.Injective_map_NoDup_in.
    + intros [u1 c1] [u2 c2] H1 H2. apply filter_In in H1, H2. cbn in *.
      intros ->. f_equal. lia.
    + apply NoDup_filter, NoDup_nodup.
  - intros c. rewrite in_map_iff. split.
    + intros ([u' c'] & <- & H). apply filter_In in H. destruct H as [H Hu].
      apply nodup_In, in_map_iff in H. destruct H as (r & Hr & Hin).
      inversion Hr; subst. cbn in *. exists r. repeat split; [exact Hin | lia].
    + intros (r & Hin & Hu & Hc). exists (u, c). split; [reflexivity |].
      apply filter_In. split; [| cbn; lia].
      apply nodup_In, in_map_iff. exists r. split; [congruence | exact Hin].
Qed.

Lemma candidate_of_user (df : list base_row) (u c : Z) :
  (exists r, In r (candidate_rows df) /\ j_user r = u /\ j_fof r = c)
  <-> is_eligible df u c.
Proof.
  unfold is_eligible. split.
  - intros (r & Hr & <- & <-). apply in_candidate_rows in Hr.
    destruct Hr as [(l1 & l2 & Hl1 & Hl2 & Hu & Hfs & Hf & Hk & Hc) [Hne Hnot]].
    exists l1, l2, (j_friend r). rewrite <- Hfs.
    repeat split; solve [assumption | congruence].
  - intros (l1 & l2 & f & Hl1 & Hl2 & Hu & Hf & Hk & Hc & Hne & Hnot).
    exists {| j_user := u; j_friends := b_friends l1; j_friend := f; j_fof := c |}.
    split; [| split; reflexivity].
    apply in_candidate_rows. cbn. split; [| split; assumption].
    exists l1, l2. repeat split; solve [assumption | congruence].
Qed.

Lemma in_eligible (df : list base_row) (u c : Z) :
  In c (eligible df u) <-> is_eligible df u c.
Proof.
  unfold eligible, is_eligible. rewrite nodup_In, in_flat_map. split.
  - intros (l1 & Hl1 & H).
    destruct (Z.eqb_spec (b_user l1) u) as [Hu | Hu]; [| destruct H].
    apply filter_In in H. destruct H as [H Hc].
    apply andb_prop in Hc. destruct Hc as [Hne Hnot].
    apply negb_true_iff, Z.eqb_neq in Hne.
    apply negb_true_iff, array_contains_not_In in Hnot.
    apply in_flat_map in H. destruct H as (f & Hf & H).
    apply in_flat_map in H. destruct H as (l2 & Hl2 & H).
    destruct (Z.eqb_spec (b_user l2) f) as [Hk | Hk]; [| destruct H].
    exists l1, l2, f. repeat split; solve [assumption | congruence].
  - intros (l1 & l2 & f & Hl1 & Hl2 & Hu & Hf & Hk & Hc & Hne & Hnot).
    exists l1. split; [exact Hl1 |].
    destruct (Z.eqb_spec (b_user l1) u) as [_ | Hu']; [| contradiction].
    apply filter_In. split.
    + apply in_flat_map. exists f. split; [exact Hf |].
      apply in_flat_map. exists l2. split; [exact Hl2 |].
      destruct (Z.eqb_spec (b_user l2) f) as [_ | Hk']; [exact Hc | contradiction].
    + apply andb_true_intro. split; apply negb_true_iff.
      * apply Z.eqb_neq, Hne.
      * apply array_contains_not_In, Hnot.
Qed.

Lemma filter_swap {A : Type} (f g : A -> bool) (l : list A) :
  filter f (filter g l) = filter g (filter f l).
Proof.
  induction l as [| x l IH]; [reflexivity |]. cbn.
  destruct (f x) eqn:Ef, (g x) eqn:Eg; cbn; rewrite ?Ef, ?Eg, IH; reflexivity.
Qed.

(** The rows of user [u] in the result: the first rows of the ordered
    partition of [u], numbered from 1. *)
Lemma rows_of_user (df : list base_row) (N u : Z) :
  let sorted := order_by tie (partition u (friend_recommendations (candidate_rows df))) in
  rows_of u (top_n_recommendations tie df N)
  = map select_user_fof_rank
        (combine (firstn (Z.to_nat (Z.min N (Z.of_nat (List.length sorted)))) sorted)
                 (ranks_upto (Z.min N (Z.of_nat (List.length sorted))))).
Proof.
  intros sorted. unfold rows_of, top_n_recommendations.
  fold (candidate_rows df). set (grouped := friend_recommendations (candidate_rows df)).
  rewrite filter_map_swap. cbn [select_user_fof_rank user]. rewrite filter_swap.
  unfold with_rank.
  rewrite (filter_partitions (fun p : agg_row * Z => g_user (fst p))
             (fun u' => row_number (order_by tie (partition u' grouped)))).
  - fold grouped in sorted. fold sorted. rewrite filter_rank. reflexivity.
  - apply NoDup_nodup.
  - intros u' [a k] H. apply in_row_number in H. destruct H as [H _].
    apply (Permutation_in _ (order_by_perm tie _)) in H.
    apply filter_In in H. cbn. lia.
  - intros Hnot. unfold partition. rewrite filter_none; [reflexivity |].
    intros a Ha. apply Z.eqb_neq. intros E. apply Hnot.
    apply nodup_In, in_map_iff. exists a. auto.
Qed.

Lemma sorted_map {A B : Type} (R : A -> A -> Prop) (S : B -> B -> Prop)
    (f : A -> B) (l : list A) :
  (forall x y, In x l -> In y l -> R x y -> S (f x) (f y)) ->
  StronglySorted R l -> StronglySorted S (map f l).
Proof.
  intros HRS H. induction H as [| x l Hl IH Hx]; cbn; constructor.
  - apply IH. intros a b Ha Hb. apply HRS; now right.
  - apply Forall_map. rewrite Forall_forall in *. intros y Hy.
    apply HRS; [now left | now right | apply Hx, Hy].
Qed.

Lemma sorted_app {A : Type} (R : A -> A -> Prop) (l1 l2 : list A) :
  StronglySorted R (l1 ++ l2) ->
  StronglySorted R l1 /\ forall x y, In x l1 -> In y l2 -> R x y.
Proof.
  induction l1 as [| a l1 IH]; cbn; intros H.
  - split; [constructor | intros x y []].
  - inversion H as [| ? ? Hs Ha]; subst. destruct (IH Hs) as [H1 H2].
    rewrite Forall_app in Ha. destruct Ha as [Ha1 Ha2]. split.
    + constructor; assumption.
    + intros x y [<- | Hx] Hy; [| apply H2; assumption].
      rewrite Forall_forall in Ha2. apply Ha2, Hy.
Qed.

End Ranking.

Lemma combine_projections {A B : Type} (l1 : list A) (l2 : list B) :
  List.length l1 = List.length l2 ->
  map fst (combine l1 l2) = l1 /\ map snd (combine l1 l2) = l2.
Proof.
  revert l2. induction l1 as [| a l1 IH]; intros [| b l2] H; cbn in *;
    try discriminate; [split; reflexivity |].
  injection H as H. destruct (IH l2 H) as [-> ->]. split; reflexivity.
Qed.

(** C6 (counterexample): user 1 reaches candidate 4 through two friends
    and candidate 5 through one, yet 5 gets rank 1 and, with N = 1, is the
    row kept; and among the tied candidates 7 and 3 either order can come
    out, the larger one first. *)
Lemma order_is_not_as_specified :
  top_n_recommendations Examples.arrival Examples.fan_df 2
  = [{| user := 1; fof := 5; rank := 1 |}; {| user := 1; fof := 4; rank := 2 |}]
  /\ common_friend_count Examples.fan_df 1 4 = 2
  /\ common_friend_count Examples.fan_df 1 5 = 1
  /\ ordered_as_specified Examples.fan_df
       (top_n_recommendations Examples.arrival Examples.fan_df 2) = false
  /\ top_n_recommendations Examples.arrival Examples.fan_df 1
     = [{| user := 1; fof := 5; rank := 1 |}]
  /\ top_n_recommendations Examples.larger_first Examples.pair_df 2
     = [{| user := 1; fof := 7; rank := 1 |}; {| user := 1; fof := 3; rank := 2 |}]
  /\ ordered_as_specified Examples.pair_df
       (top_n_recommendations Examples.larger_first Examples.pair_df 2) = false.
Proof. repeat split. Qed.

(** C6 (amended): for every N and every user, the ranks of the user's
    rows are 1, 2, ..., min(N, eligibleCount), one row per rank and one
    candidate per row, every candidate eligible; along the ranks the
    aggregated value of the candidates' groups does not increase, and no
    eligible candidate left out has a larger one than a candidate kept.
    The order among equal values is not fixed. *)
Theorem ranks_dense_by_aggregate (tie : Z -> Z -> Z) (df : list base_row) (N u : Z) :
  (forall c, In c (eligible df u) <-> is_eligible df u c)
  /\ map rank (rows_of u (top_n_recommendations tie df N))
     = ranks_upto (Z.min N (Z.of_nat (List.length (eligible df u))))
  /\ NoDup (map fof (rows_of u (top_n_recommendations tie df N)))
  /\ (forall c, In c (map fof (rows_of u (top_n_recommendations tie df N))) ->
                In c (eligible df u))
  /\ StronglySorted (by_aggregate df u)
       (map fof (rows_of u (top_n_recommendations tie df N)))
  /\ (forall c c',
         In c (eligible df u) ->
         ~ In c (map fof (rows_of u (top_n_recommendations tie df N))) ->
         In c' (map fof (rows_of u (top_n_recommendations tie df N))) ->
         by_aggregate df u c' c).
Proof.
  split; [intros c; apply in_eligible |].
  rewrite (rows_of_user tie df N u). cbv zeta.
  set (part := partition u (friend_recommendations (candidate_rows df))).
  set (sorted := order_by tie part).
  set (cs := map g_fof sorted).
  assert (Hpart : map g_fof part = group_candidates u (candidate_rows df)).
  { unfold part. rewrite partition_grouped, map_map. cbn. apply map_id. }
  assert (Hagg : forall a, In a sorted -> common_friends a = aggregate df u (g_fof a)).
  { intros a Ha. apply (Permutation_in _ (order_by_perm tie part)) in Ha.
    unfold part in Ha. rewrite partition_grouped in Ha. apply in_map_iff in Ha.
    destruct Ha as (c & <- & _). reflexivity. }
  destruct (group_candidates_spec (candidate_rows df) u) as [Hnd Hin].
  assert (Hcs : Permutation cs (eligible df u)).
  { apply NoDup_Permutation.
    - unfold cs. eapply Permutation_NoDup; [| exact Hnd]. rewrite <- Hpart.
      apply Permutation_map. symmetry. apply order_by_perm.
    - apply NoDup_nodup.
    - intros c. rewrite in_eligible, <- candidate_of_user, <- Hin, <- Hpart.
      unfold cs. split; apply Permutation_in, Permutation_map;
        [| symmetry]; apply order_by_perm. }
  assert (Hlen : List.length sorted = List.length (eligible df u)).
  { rewrite <- (Permutation_length Hcs). unfold cs. symmetry. apply length_map. }
  assert (Hsorted : StronglySorted (by_aggregate df u) cs).
  { unfold cs. apply sorted_map with (R := at_least); [| apply order_by_sorted].
    intros a b Ha Hb. unfold at_least, by_aggregate.
    rewrite (Hagg a Ha), (Hagg b Hb). auto. }
  rewrite Hlen.
  set (n := Z.min N (Z.of_nat (List.length (eligible df u)))).
  assert (Hm : List.length (firstn (Z.to_nat n) sorted) = List.length (ranks_upto n)).
  { unfold ranks_upto. rewrite length_firstn, length_map, length_seq. lia. }
  destruct (combine_projections _ _ Hm) as [Hfst Hsnd].
  assert (Hfof : map fof (map select_user_fof_rank
                            (combine (firstn (Z.to_nat n) sorted) (ranks_upto n)))
                 = firstn (Z.to_nat n) cs).
  { rewrite map_map. cbn [select_user_fof_rank fof].
    rewrite <- (map_map fst g_fof), Hfst. unfold cs. symmetry. apply firstn_map. }
  rewrite Hfof.
  assert (Hsplit : cs = firstn (Z.to_nat n) cs ++ skipn (Z.to_nat n) cs).
  { symmetry. apply firstn_skipn. }
  assert (Hndcs : NoDup cs).
  { eapply Permutation_NoDup; [symmetry; exact Hcs | apply NoDup_nodup]. }
  rewrite Hsplit in Hsorted. apply sorted_app in Hsorted.
  destruct Hsorted as [Hfirst Hcross].
  split; [| split; [| split; [| split]]].
  - rewrite map_map. cbn [select_user_fof_rank rank]. exact Hsnd.
  - rewrite Hsplit in Hndcs. eapply NoDup_app_remove_r, Hndcs.
  - intros c Hc. apply (Permutation_in _ Hcs). rewrite Hsplit.
    apply in_or_app. now left.
  - exact Hfirst.
  - intros c c' Hc Hout Hc'. apply Hcross; [exact Hc' |].
    apply (Permutation_in _ (Permutation_sym Hcs)) in Hc.
    rewrite Hsplit in Hc. apply in_app_or in Hc. tauto.
Qed.

(** C1: on the base file where user 1 reaches candidate 4 through
    friends 2 and 3 and candidate 5 through friend 9, the group of (1, 4)
    gets 2 + 3 = 5 and the group of (1, 5) gets 9, where the counts of
    common friends are 2 and 1; with N = 1 the row kept is (1, 5),
    whatever the order among ties. *)
Theorem common_friends_is_sum_of_ids :
  aggregate Examples.fan_df 1 4 = 5
  /\ common_friend_count Examples.fan_df 1 4 = 2
  /\ aggregate Examples.fan_df 1 5 = 9
  /\ common_friend_count Examples.fan_df 1 5 = 1
  /\ forall tie, get_N_recommendation tie Examples.fan_file 1
                 = Ok [{| user := 1; fof := 5; rank := 1 |}].
Proof. repeat split. Qed.

(** ** The scorer *)

Section Scorer.

Lemma geb_ltb_negb (a b : Z) : (a >=? b) = negb (a <? b).
Proof. rewrite Z.geb_leb, Z.ltb_antisym, negb_involutive. reflexivity. Qed.

Lemma unclamped_both_present (r : joined_row) (du dc : demo_row) :
  user_props r = Some du -> potential_friend_props r = Some dc ->
  exists b1 b2 b3 b4 b5 b6 : bool,
    b1 = (age du =? gender dc)
    /\ b2 = (Sql.wrap64 (Z.abs (Sql.wrap64 (age du - age dc))) <? 5)
    /\ b3 = (Sql.wrap64 (Z.abs (Sql.wrap64 (age du - age dc))) <? 10)
    /\ b4 = (city du =? city dc)
    /\ b5 = (education du =? 1)
    /\ b6 = (education dc =? 1)
    /\ unclamped r
       = (let p0 := if b1 then 0.3 else 0.1 in
          let p1 := if b2 then p0 + 0.4 else if b3 then p0 + 0.2 else p0 - 0.2 in
          let p2 := if b4 then p1 + 0.5 else p1 in
          if (b5 && b6)%bool then p2 + 0.3
          else if (b5 || b6)%bool then p2 + 0.1 else p2)%float.
Proof.
  intros Hu Hc.
  exists (age du =? gender dc),
         (Sql.wrap64 (Z.abs (Sql.wrap64 (age du - age dc))) <? 5),
         (Sql.wrap64 (Z.abs (Sql.wrap64 (age du - age dc))) <? 10),
         (city du =? city dc), (education du =? 1), (education dc =? 1).
  repeat split.
  unfold unclamped, education_step, city_step, age_step, gender_step, age_gap,
    user_age, user_city, user_education, potential_friend_gender,
    potential_friend_age, potential_friend_city, potential_friend_education.
  rewrite Hu, Hc. cbn [option_map Sql.sub Sql.abs Sql.eq Sql.lt Sql.ge].
  rewrite geb_ltb_negb.
  destruct (age du =? gender dc),
    (Sql.wrap64 (Z.abs (Sql.wrap64 (age du - age dc))) <? 5),
    (Sql.wrap64 (Z.abs (Sql.wrap64 (age du - age dc))) <? 10),
    (city du =? city dc), (education du =? 1), (education dc =? 1);
    reflexivity.
Qed.

Lemma wrap64_small (z : Z) : - 2 ^ 63 <= z < 2 ^ 63 -> Sql.wrap64 z = z.
Proof.
  intros H. unfold Sql.wrap64. rewrite Z.mod_small; lia.
Qed.

(** Where the test of the first step happens to agree with the gender
    rule, and the ages are far from the ends of [bigint], the chain of
    steps gives the four rule terms summed and clamped. *)
Lemma clamped_rule_sum_up_to_gender_test (r : joined_row) (du dc : demo_row) :
  user_props r = Some du -> potential_friend_props r = Some dc ->
  (age du =? gender dc) = (gender du =? gender dc) ->
  - 2 ^ 62 <= age du < 2 ^ 62 -> - 2 ^ 62 <= age dc < 2 ^ 62 ->
  probability (score r) = Rules.clamp01 (Rules.rule_sum du dc).
Proof.
  intros Hu Hc Hg Hau Hac.
  destruct (unclamped_both_present r du dc Hu Hc)
    as (b1 & b2 & b3 & b4 & b5 & b6 & E1 & E2 & E3 & E4 & E5 & E6 & Hcode).
  cbn [score probability]. rewrite Hcode.
  unfold Rules.rule_sum, Rules.gender_term, Rules.gender_rule, Rules.age_term,
    Rules.city_term, Rules.education_term.
  rewrite <- Hg, <- E1, <- E4, <- E5, <- E6.
  rewrite (wrap64_small (age du - age dc)) in E2, E3 by lia.
  rewrite wrap64_small in E2, E3 by lia.
  rewrite <- E2, <- E3. clear.
  destruct b1, b2, b3, b4, b5, b6; reflexivity.
Qed.

(** The spec's own example: 0.3 + 0.4 + 0.5 + 0.3 = 1.5 saturates at 1. *)
Example largest_terms_saturate :
  Rules.rule_sum Examples.twin Examples.twin = 1.5%float
  /\ probability (score Examples.twin_pair) = 1%float.
Proof. split; reflexivity. Qed.

(** C7: for a user and a candidate of the same gender (1) and the same
    age (25), in different cities and without higher education, the four
    rule terms sum to 0.3 + 0.4 = 0.7, which lies in [0, 1]; the code's
    chain of steps sums to 0.1 + 0.4 and emits 0.5. *)
Theorem clamped_sum_has_wrong_gender_term :
  Rules.rule_sum Examples.same_gender_user Examples.same_gender_friend = 0.7%float
  /\ Rules.clamp01
       (Rules.rule_sum Examples.same_gender_user Examples.same_gender_friend)
     = 0.7%float
  /\ unclamped Examples.same_gender_pair = 0.5%float
  /\ probability (score Examples.same_gender_pair) = 0.5%float.
Proof. repeat split. Qed.

(** The first step of the chain tests the user's age against the
    candidate's gender. *)
Lemma gender_step_both_present (r : joined_row) (du dc : demo_row) :
  user_props r = Some du -> potential_friend_props r = Some dc ->
  gender_step r = (if (age du =? gender dc)%Z then 0.3 else 0.1)%float.
Proof.
  intros Hu Hc. unfold gender_step, user_age, potential_friend_gender.
  rewrite Hu, Hc. cbn. destruct (age du =? gender dc); reflexivity.
Qed.

(** C2: for a user and a candidate of the same gender (1) and the same
    age (25) the code's gender term is 0.1, where the rule of the
    docstring gives 0.3, and the probability comes out as 0.5. *)
Theorem gender_term_uses_age :
  gender_step Examples.same_gender_pair = 0.1%float
  /\ Rules.gender_rule (gender Examples.same_gender_user)
                       (gender Examples.same_gender_friend) = 0.3%float
  /\ probability (score Examples.same_gender_pair) = 0.5%float.
Proof. repeat split. Qed.

(** *** Left joins *)

Lemma filter_nil_has_record (ap : list demo_row) (k : Z) :
  filter (fun d => k =? ID d) ap = [] <-> has_record ap k = false.
Proof.
  unfold has_record. induction ap as [| d ap IH]; cbn; [tauto |].
  destruct (k =? ID d); cbn; [split; discriminate | exact IH].
Qed.

Lemma in_left_join {A B : Type} (key : A -> Z) (mk : A -> option demo_row -> B)
    (left : list A) (ap : list demo_row) (b : B) :
  In b (left_join key mk left ap) <->
  exists r, In r left
    /\ ((has_record ap (key r) = false /\ b = mk r None)
        \/ exists d, In d ap /\ key r = ID d /\ b = mk r (Some d)).
Proof.
  unfold left_join. rewrite in_flat_map. split.
  - intros (r & Hr & Hb). exists r. split; [exact Hr |].
    destruct (filter (fun d => key r =? ID d) ap) as [| m ms] eqn:E.
    + left. destruct Hb as [<- | []]. split; [| reflexivity].
      apply filter_nil_has_record, E.
    + right. rewrite <- E in Hb. apply in_map_iff in Hb.
      destruct Hb as (d & <- & Hd). apply filter_In in Hd.
      destruct Hd as [Hd Hk]. exists d. repeat split; [exact Hd | lia].
  - intros (r & Hr & [[Hn ->] | (d & Hd & Hk & ->)]); exists r; (split; [exact Hr |]).
    + apply filter_nil_has_record in Hn. rewrite Hn. now left.
    + assert (Hin : In d (filter (fun d => key r =? ID d) ap)).
      { apply filter_In. split; [exact Hd | lia]. }
      destruct (filter (fun d => key r =? ID d) ap) as [| m ms] eqn:E;
        [destruct Hin |].
      apply in_map_iff. exists d. split; [reflexivity | exact Hin].
Qed.

Lemma in_join_demographics (top_n : list rec_row) (ap : list demo_row)
    (j : joined_row) :
  In j (join_demographics top_n ap) <->
  In (recommendation j) top_n
  /\ side_ok ap (user (recommendation j)) (user_props j)
  /\ side_ok ap (fof (recommendation j)) (potential_friend_props j).
Proof.
  unfold join_demographics. rewrite in_left_join. split.
  - intros ([r u] & Hp & Hj). apply in_left_join in Hp.
    destruct Hp as (r' & Hr' & Hu). cbn [fst snd] in Hj.
    assert (r' = r /\ side_ok ap (user r) u) as [-> Hside].
    { destruct Hu as [[Hn Heq] | (d & Hd & Hk & Heq)];
        inversion Heq; subst; split; cbn; auto. }
    destruct Hj as [[Hn ->] | (d & Hd & Hk & ->)]; cbn; auto.
  - intros (Hr & Hu & Hc). destruct j as [r u c]. cbn in *.
    exists (r, u). split.
    + apply in_left_join. exists r. split; [exact Hr |].
      destruct u as [d |]; cbn in Hu; [right | left; auto].
      exists d. destruct Hu. auto.
    + cbn [fst snd]. destruct c as [d |]; cbn in Hc; [right | left; auto].
      exists d. destruct Hc. auto.
Qed.

Lemma probability_missing_record (j : joined_row) :
  user_props j = None \/ potential_friend_props j = None ->
  probability (score j) = (if present_education j then 0.1 + 0.1 else 0.1)%float.
Proof.
  intros H. cbn [score probability].
  unfold unclamped, education_step, city_step, age_step, gender_step, age_gap,
    user_age, user_city, user_education, potential_friend_gender,
    potential_friend_age, potential_friend_city, potential_friend_education,
    present_education.
  destruct (user_props j) as [du |], (potential_friend_props j) as [dc |];
    cbn [option_map Sql.sub Sql.abs Sql.eq Sql.lt Sql.ge Sql.holds Sql.and3 Sql.or3].
  - destruct H; discriminate.
  - destruct (education du =? 1); reflexivity.
  - destruct (education dc =? 1); reflexivity.
  - reflexivity.
Qed.

Lemma in_scored_recommendations (top_n : list rec_row) (ap : list demo_row)
    (s : scored_row) :
  In s (scored_recommendations top_n ap) <->
  s = score (joined s)
  /\ In (recommendation (joined s)) top_n
  /\ side_ok ap (user (recommendation (joined s))) (user_props (joined s))
  /\ side_ok ap (fof (recommendation (joined s))) (potential_friend_props (joined s)).
Proof.
  unfold scored_recommendations. rewrite in_map_iff. split.
  - intros (j & <- & Hj). apply in_join_demographics in Hj. cbn. tauto.
  - intros (Hs & Hj). exists (joined s). split; [symmetry; exact Hs |].
    apply in_join_demographics, Hj.
Qed.

Lemma side_ok_inhabited (ap : list demo_row) (k : Z) :
  exists props, side_ok ap k props.
Proof.
  destruct (has_record ap k) eqn:E.
  - unfold has_record in E. apply existsb_exists in E. destruct E as (d & Hd & Hk).
    exists (Some d). cbn. split; [exact Hd | lia].
  - exists None. exact E.
Qed.

Lemma side_ok_missing (ap : list demo_row) (k : Z) (props : option demo_row) :
  has_record ap k = false -> side_ok ap k props -> props = None.
Proof.
  intros Hn Hs. destruct props as [d |]; [| reflexivity].
  destruct Hs as [Hd ->]. unfold has_record in Hn.
  assert (existsb (fun d0 => ID d =? ID d0) ap = true); [| congruence].
  apply existsb_exists. exists d. split; [exact Hd | lia].
Qed.

(** C8 (counterexample): user 3 has no record in the secondary frame, yet
    the row (1, 3) comes out with the number 0.1 + 0.1 as its
    probability. *)
Lemma missing_record_gets_a_number :
  exists s, In s (scored_recommendations Examples.chain_top Examples.only_user_1)
    /\ recommendation (joined s) = {| user := 1; fof := 3; rank := 1 |}
    /\ potential_friend_props (joined s) = None
    /\ probability s = 0.2%float.
Proof.
  eexists. split; [left; reflexivity |]. repeat split.
Qed.

(** C8 (amended): a recommendation whose user or candidate has no record
    in the secondary frame is still emitted; in each of its rows the side
    that has a record holds a record of the frame with that ID, the side
    without one is null, and the probability is the number 0.1, or
    0.1 + 0.1 when the record that is present has higher education 1. *)
Theorem missing_record_row_kept_with_number (top_n : list rec_row)
    (ap : list demo_row) (rec : rec_row)
    (Hin : In rec top_n)
    (Hmiss : has_record ap (user rec) = false \/ has_record ap (fof rec) = false) :
  (exists s, In s (scored_recommendations top_n ap) /\ recommendation (joined s) = rec)
  /\ forall s, In s (scored_recommendations top_n ap) ->
       recommendation (joined s) = rec ->
       side_ok ap (user rec) (user_props (joined s))
       /\ side_ok ap (fof rec) (potential_friend_props (joined s))
       /\ (user_props (joined s) = None \/ potential_friend_props (joined s) = None)
       /\ probability s
          = (if present_education (joined s) then 0.1 + 0.1 else 0.1)%float.
Proof.
  split.
  - destruct (side_ok_inhabited ap (user rec)) as [u Hu].
    destruct (side_ok_inhabited ap (fof rec)) as [c Hc].
    exists (score {| recommendation := rec; user_props := u;
                     potential_friend_props := c |}).
    split; [| reflexivity].
    apply in_scored_recommendations. cbn. auto.
  - intros s Hs Hrec. apply in_scored_recommendations in Hs.
    destruct Hs as (Hscore & _ & Hu & Hc). rewrite Hrec in Hu, Hc.
    assert (Hnone : user_props (joined s) = None
                    \/ potential_friend_props (joined s) = None).
    { destruct Hmiss as [Hm | Hm]; [left | right];
        eapply side_ok_missing; eassumption. }
    split; [exact Hu |]. split; [exact Hc |]. split; [exact Hnone |].
    rewrite Hscore at 1. apply probability_missing_record, Hnone.
Qed.

Lemma missing_record_row_kept_with_number_witness :
  (exists s, In s (scored_recommendations Examples.chain_top Examples.only_user_1)
             /\ recommendation (joined s) = {| user := 3; fof := 1; rank := 1 |})
  /\ forall s, In s (scored_recommendations Examples.chain_top Examples.only_user_1) ->
       recommendation (joined s) = {| user := 3; fof := 1; rank := 1 |} ->
       side_ok Examples.only_user_1 3 (user_props (joined s))
       /\ side_ok Examples.only_user_1 1 (potential_friend_props (joined s))
       /\ (user_props (joined s) = None \/ potential_friend_props (joined s) = None)
       /\ probability s
          = (if present_education (joined s) then 0.1 + 0.1 else 0.1)%float.
Proof.
  apply (missing_record_row_kept_with_number Examples.chain_top
           Examples.only_user_1 {| user := 3; fof := 1; rank := 1 |}).
  - right. left. reflexivity.
  - left. reflexivity.
Defined.

(** *** The joins keep the rows *)

Lemma filter_unique_id (ap : list demo_row) (k : Z) :
  NoDup (map ID ap) ->
  filter (fun d => k =? ID d) ap = []
  \/ exists d, filter (fun d => k =? ID d) ap = [d].
Proof.
  induction ap as [| d ap IH]; intros Hnd; [left; reflexivity |].
  inversion Hnd as [| ? ? Hnotin Hnd']; subst. cbn.
  destruct (Z.eqb_spec k (ID d)) as [-> | Hne]; [| exact (IH Hnd')].
  right. exists d. f_equal.
  apply filter_nil_has_record. unfold has_record.
  destruct (existsb (fun d0 => ID d =? ID d0) ap) eqn:E; [| reflexivity].
  apply existsb_exists in E. destruct E as (d' & Hd' & He).
  exfalso. apply Hnotin. apply in_map_iff. exists d'. split; [lia | exact Hd'].
Qed.

Lemma left_join_keeps_rows {A B : Type} (key : A -> Z)
    (mk : A -> option demo_row -> B) (back : B -> A)
    (left : list A) (ap : list demo_row) :
  (forall r d, back (mk r d) = r) ->
  NoDup (map ID ap) ->
  map back (left_join key mk left ap) = left.
Proof.
  intros Hback Hnd. unfold left_join.
  induction left as [| r left IH]; [reflexivity |].
  cbn [flat_map]. rewrite map_app, IH. clear IH.
  destruct (filter_unique_id ap (key r) Hnd) as [-> | (d & ->)];
    cbn; rewrite Hback; reflexivity.
Qed.

(** C10: when the secondary frame holds at most one record per ID, the
    scored frame has the rows of the ranked frame, each once and in
    place, with [user], [fof] and [rank] as they were. *)
Theorem scoring_keeps_rows (top_n : list rec_row) (ap : list demo_row)
    (Hid : NoDup (map ID ap)) :
  map (fun s => recommendation (joined s)) (scored_recommendations top_n ap) = top_n.
Proof.
  unfold scored_recommendations, join_demographics.
  rewrite map_map. cbn [joined score].
  set (first := left_join user (fun r d => (r, d)) top_n ap).
  assert (Hfirst : map fst first = top_n).
  { apply left_join_keeps_rows; [reflexivity | exact Hid]. }
  rewrite <- Hfirst.
  assert (Hsecond :
    map (fun j => (recommendation j, user_props j))
        (left_join (fun p => fof (fst p))
           (fun p d => {| recommendation := fst p; user_props := snd p;
                          potential_friend_props := d |})
           first ap) = first).
  { apply left_join_keeps_rows; [intros [r u] d; reflexivity | exact Hid]. }
  rewrite <- Hsecond at 2. rewrite map_map. reflexivity.
Qed.

Lemma scoring_keeps_rows_witness :
  map (fun s => recommendation (joined s))
      (scored_recommendations Examples.chain_top Examples.only_user_1)
  = Examples.chain_top.
Proof.
  apply (scoring_keeps_rows Examples.chain_top Examples.only_user_1).
  cbn. constructor; [intros [] | constructor].
Defined.

End Scorer.

(** ** The result file *)

Section Formatter.

Local Open Scope string_scope.

Lemma append_empty_r (a : string) : a ++ "" = a.
Proof. induction a as [| c a IH]; cbn; congruence. Qed.

Lemma append_nonempty_r (a b : string) : b <> "" -> a ++ b <> "".
Proof. destruct a, b; cbn; congruence. Qed.

Lemma append_assoc (a b c : string) : (a ++ b) ++ c = a ++ (b ++ c).
Proof. induction a as [| x a IH]; cbn; congruence. Qed.

Lemma all_chars_app (P : ascii -> bool) (a b : string) :
  all_chars P (a ++ b) = (all_chars P a && all_chars P b)%bool.
Proof.
  induction a as [| c a IH]; cbn; [reflexivity |].
  rewrite IH, andb_assoc. reflexivity.
Qed.

Lemma all_chars_weaken (P Q : ascii -> bool) (s : string) :
  (forall c, P c = true -> Q c = true) ->
  all_chars P s = true -> all_chars Q s = true.
Proof.
  intros HPQ. induction s as [| c s IH]; cbn; [reflexivity |].
  intros H. apply andb_prop in H. destruct H as [Hc Hs].
  rewrite (HPQ c Hc), (IH Hs). reflexivity.
Qed.

Lemma last_char_all (P : ascii -> bool) (s : string) :
  s <> "" -> all_chars P s = true -> exists c, last_char s = Some c /\ P c = true.
Proof.
  induction s as [| c s IH]; [congruence |]. intros _ H. cbn in H.
  apply andb_prop in H. destruct H as [Hc Hs].
  destruct s as [| c' s']; [exists c; auto |].
  destruct IH as (x & Hx & HP); [discriminate | exact Hs |].
  exists x. split; [exact Hx | exact HP].
Qed.

Lemma last_char_app (a b : string) :
  b <> "" -> last_char (a ++ b) = last_char b.
Proof.
  intros Hb. induction a as [| c a IH]; [reflexivity |].
  cbn [append]. change (last_char (String c (a ++ b)))
    with (match a ++ b with "" => Some c | _ => last_char (a ++ b) end).
  destruct (a ++ b) eqn:E; [| exact IH].
  destruct a; cbn in E; [congruence | discriminate].
Qed.

Lemma digit_not_space (c : ascii) : is_digit c = true -> PyStr.is_space c = false.
Proof.
  destruct c as [[|] [|] [|] [|] [|] [|] [|] [|]]; vm_compute; congruence.
Qed.

Lemma string_of_uint_digits (d : Decimal.uint) :
  all_chars is_digit (NilEmpty.string_of_uint d) = true.
Proof. induction d; cbn; auto. Qed.

Lemma nilzero_digits (d : Decimal.uint) :
  NilZero.string_of_uint d <> ""
  /\ all_chars is_digit (NilZero.string_of_uint d) = true.
Proof.
  destruct d; cbn; (split; [discriminate |]);
    try reflexivity; apply string_of_uint_digits.
Qed.

(** [str] of an integer: an optional minus sign, then digits. *)
Lemma str_int_shape (z : Z) :
  (exists c, last_char (PyStr.str_int z) = Some c /\ is_digit c = true)
  /\ all_chars (fun c => negb (Ascii.eqb c Handlers.newline_char)) (PyStr.str_int z)
     = true.
Proof.
  unfold PyStr.str_int. destruct (Z.to_int z) as [d | d]; cbn [NilZero.string_of_int].
  - destruct (nilzero_digits d) as [Hne Hd]. split.
    + apply last_char_all; assumption.
    + revert Hd. apply all_chars_weaken.
      intros c. destruct c as [[|] [|] [|] [|] [|] [|] [|] [|]]; vm_compute; congruence.
  - destruct (nilzero_digits d) as [Hne Hd]. split.
    + change (String "-" (NilZero.string_of_uint d))
        with ("-" ++ NilZero.string_of_uint d).
      rewrite last_char_app by exact Hne. apply last_char_all; assumption.
    + cbn. revert Hd. apply all_chars_weaken.
      intros c. destruct c as [[|] [|] [|] [|] [|] [|] [|] [|]]; vm_compute; congruence.
Qed.

Lemma split_acc_line (cur l rest : string) :
  all_chars (fun c => negb (Ascii.eqb c Handlers.newline_char)) l = true ->
  PyStr.split_acc Handlers.newline_char cur (l ++ Handlers.newline ++ rest)
  = (cur ++ l) :: PyStr.split_acc Handlers.newline_char "" rest.
Proof.
  revert cur. induction l as [| c l IH]; intros cur Hl.
  - cbn. rewrite append_empty_r. reflexivity.
  - cbn [all_chars] in Hl. apply andb_prop in Hl. destruct Hl as [Hc Hl].
    cbn [append PyStr.split_acc]. apply negb_true_iff in Hc. rewrite Hc.
    rewrite IH by exact Hl. f_equal.
    rewrite append_assoc. reflexivity.
Qed.

Lemma split_write_lines (lines : list string) :
  Forall (fun l => all_chars (fun c => negb (Ascii.eqb c Handlers.newline_char)) l
                   = true) lines ->
  PyStr.split Handlers.newline_char (Handlers.write_lines lines) = (lines ++ [""])%list.
Proof.
  unfold PyStr.split. induction 1 as [| l lines Hl _ IH]; [reflexivity |].
  cbn [Handlers.write_lines fold_right]. rewrite split_acc_line by exact Hl.
  cbn [app]. f_equal. exact IH.
Qed.

Lemma plain_line_shape (r : rec_row) :
  all_chars (fun c => negb (Ascii.eqb c Handlers.newline_char)) (Handlers.plain_line r)
  = true
  /\ no_trailing_space (Handlers.plain_line r).
Proof.
  unfold Handlers.plain_line.
  destruct (str_int_shape (user r)) as [_ Hu].
  destruct (str_int_shape (fof r)) as [(c & Hc & Hd) Hf].
  split.
  - rewrite !all_chars_app, Hu, Hf. reflexivity.
  - exists c. split; [| apply digit_not_space, Hd].
    rewrite !last_char_app; [exact Hc | |];
      intros E; [| destruct (PyStr.str_int (fof r)); discriminate].
    rewrite E in Hc. discriminate.
Qed.

Lemma probability_line_shape (str_float : float -> string) (s : scored_row) :
  solid (str_float (probability s)) ->
  all_chars (fun c => negb (Ascii.eqb c Handlers.newline_char))
            (Handlers.probability_line str_float s) = true
  /\ no_trailing_space (Handlers.probability_line str_float s).
Proof.
  intros [Hne Hsolid]. unfold Handlers.probability_line.
  destruct (str_int_shape (user (recommendation (joined s)))) as [_ Hu].
  destruct (str_int_shape (fof (recommendation (joined s)))) as [_ Hf].
  split.
  - rewrite !all_chars_app, Hu, Hf. cbn.
    revert Hsolid. apply all_chars_weaken.
    intros c. destruct c as [[|] [|] [|] [|] [|] [|] [|] [|]]; vm_compute; congruence.
  - destruct (last_char_all _ _ Hne Hsolid) as (c & Hc & Hs).
    exists c. split; [| apply negb_true_iff, Hs].
    rewrite !last_char_app; [exact Hc | ..];
      repeat apply append_nonempty_r; exact Hne.
Qed.

(** C9: the result file holds one line per recommendation and nothing
    else (no header); a line is [<user> <fof>] without probabilities and
    [<user> <fof>, <probability>] with them, and does not end in white
    space, given that the printed form of a float holds none. *)
Theorem result_file_format (tie : Z -> Z -> Z) (str_float : float -> string)
    (Hfloat : forall p, solid (str_float p)) :
  (forall base_file use_secondary_file secondary_file N,
      Handlers.calculate_recomendations tie str_float base_file
        use_secondary_file secondary_file N
      = (top <- get_N_recommendation tie base_file N ;;
         match secondary_file with
         | Some sec =>
             if use_secondary_file
             then scored <- get_probability top sec ;;
                  Ok (Handlers.write_lines
                        (map (Handlers.probability_line str_float) scored))
             else Ok (Handlers.write_lines (map Handlers.plain_line top))
         | None => Ok (Handlers.write_lines (map Handlers.plain_line top))
         end))
  /\ (forall top : list rec_row,
         PyStr.split Handlers.newline_char
           (Handlers.write_lines (map Handlers.plain_line top))
         = (map (fun r => (PyStr.str_int (user r) ++ " " ++ PyStr.str_int (fof r))%string)
                 top
              ++ [""])%list
         /\ Forall (fun r => no_trailing_space (Handlers.plain_line r)) top)
  /\ (forall scored : list scored_row,
         PyStr.split Handlers.newline_char
           (Handlers.write_lines (map (Handlers.probability_line str_float) scored))
         = (map (fun s => (PyStr.str_int (user (recommendation (joined s))) ++ " "
                           ++ PyStr.str_int (fof (recommendation (joined s))) ++ ", "
                           ++ str_float (probability s))%string) scored
              ++ [""])%list
         /\ Forall (fun s => no_trailing_space (Handlers.probability_line str_float s))
                   scored).
Proof.
  split; [| split].
  - intros base_file use_secondary_file secondary_file N.
    unfold Handlers.calculate_recomendations, Handlers.result_lines.
    destruct (get_N_recommendation tie base_file N) as [top | e]; cbn [bind];
      [| reflexivity].
    destruct secondary_file as [sec |]; [| reflexivity].
    destruct use_secondary_file; [| reflexivity].
    destruct (get_probability top sec); reflexivity.
  - intros top. split.
    + apply split_write_lines. apply Forall_map, Forall_forall.
      intros r _. apply plain_line_shape.
    + apply Forall_forall. intros r _. apply plain_line_shape.
  - intros scored. split.
    + apply split_write_lines. apply Forall_map, Forall_forall.
      intros r _. apply probability_line_shape, Hfloat.
    + apply Forall_forall. intros r _. apply probability_line_shape, Hfloat.
Qed.

Lemma sample_str_float_solid (p : float) : solid (Examples.sample_str_float p).
Proof.
  unfold Examples.sample_str_float.
  destruct (PrimFloat.eqb p 1); [split; [discriminate | reflexivity] |].
  destruct (PrimFloat.eqb p 0); split; (discriminate || reflexivity).
Qed.

Lemma result_file_format_witness :
  PyStr.split Handlers.newline_char
    (Handlers.write_lines (map Handlers.plain_line Examples.chain_top))
  = ["1 3"; "3 1"; ""]%list.
Proof.
  apply (proj1 (proj1 (proj2 (result_file_format Examples.arrival
                                Examples.sample_str_float sample_str_float_solid))
                      Examples.chain_top)).
Defined.

End Formatter.

(** * Further properties of the code *)

Import Lines.

(** ** Integers in text *)

Section Numerals.

Local Open Scope string_scope.

Lemma digits_of_numeral (d : Decimal.uint) (acc : Z) :
  PyStr.digits acc true (NilEmpty.string_of_uint d) = Some (Lines.value acc d).
Proof.
  revert acc. induction d; intros acc; cbn [NilEmpty.string_of_uint Lines.value];
    [reflexivity | ..]; apply IHd.
Qed.

Lemma digits_of_nilzero (d : Decimal.uint) :
  PyStr.digits 0 false (NilZero.string_of_uint d) = Some (Lines.value 0 d).
Proof.
  destruct d; [reflexivity | ..];
    apply (digits_of_numeral d).
Qed.

Lemma value_of_uint_acc (d : Decimal.uint) (acc : positive) :
  Lines.value (Z.pos acc) d = Z.pos (Pos.of_uint_acc d acc).
Proof.
  revert acc. induction d; intros acc; cbn [Lines.value Pos.of_uint_acc];
    [reflexivity | ..];
    match goal with
    | |- Lines.value ?z _ = Z.pos (Pos.of_uint_acc _ ?p) =>
        replace z with (Z.pos p) by lia; apply IHd
    end.
Qed.

Lemma value_of_uint (d : Decimal.uint) :
  Lines.value 0 d = Z.of_N (Pos.of_uint d).
Proof.
  induction d; cbn [Lines.value Pos.of_uint]; [reflexivity | exact IHd | ..];
    apply (value_of_uint_acc d).
Qed.

Lemma lstrip_blank (ws s : string) :
  Lines.blank ws -> PyStr.lstrip (ws ++ s) = PyStr.lstrip s.
Proof.
  unfold Lines.blank. induction ws as [| c ws IH]; cbn; [reflexivity |].
  intros H. apply andb_prop in H. destruct H as [Hc Hws]. rewrite Hc. auto.
Qed.

Lemma lstrip_solid (s : string) :
  all_chars (fun c => negb (PyStr.is_space c)) s = true -> PyStr.lstrip s = s.
Proof.
  destruct s as [| c s]; cbn; [reflexivity |]. intros H.
  apply andb_prop in H. destruct H as [Hc _]. apply negb_true_iff in Hc.
  rewrite Hc. reflexivity.
Qed.

Lemma rstrip_blank (ws : string) : Lines.blank ws -> PyStr.rstrip ws = "".
Proof.
  unfold Lines.blank. induction ws as [| c ws IH]; cbn; [reflexivity |].
  intros H. apply andb_prop in H. destruct H as [Hc Hws].
  rewrite (IH Hws), Hc. reflexivity.
Qed.

Lemma rstrip_app_blank (s ws : string) :
  Lines.blank ws -> PyStr.rstrip (s ++ ws) = PyStr.rstrip s.
Proof.
  intros H. induction s as [| c s IH]; cbn [append PyStr.rstrip];
    [apply rstrip_blank, H | rewrite IH; reflexivity].
Qed.

Lemma rstrip_solid (s : string) :
  all_chars (fun c => negb (PyStr.is_space c)) s = true -> PyStr.rstrip s = s.
Proof.
  induction s as [| c s IH]; cbn; [reflexivity |]. intros H.
  apply andb_prop in H. destruct H as [Hc Hs]. apply negb_true_iff in Hc.
  rewrite (IH Hs), Hc. destruct s; reflexivity.
Qed.

Lemma strip_padded (ws1 s ws2 : string) :
  Lines.blank ws1 -> Lines.blank ws2 -> solid s ->
  PyStr.strip (ws1 ++ s ++ ws2) = s.
Proof.
  intros H1 H2 [Hne Hs]. unfold PyStr.strip.
  rewrite lstrip_blank by exact H1.
  destruct s as [| c s]; [congruence |].
  assert (Hc : PyStr.is_space c = false).
  { cbn in Hs. apply andb_prop in Hs. destruct Hs as [Hc _].
    apply negb_true_iff, Hc. }
  cbn [append PyStr.lstrip]. rewrite Hc.
  change (String c (s ++ ws2)) with (String c s ++ ws2).
  rewrite rstrip_app_blank by exact H2. apply rstrip_solid, Hs.
Qed.

Lemma str_int_solid (z : Z) : solid (PyStr.str_int z).
Proof.
  unfold PyStr.str_int.
  assert (Hd : forall d, solid (NilZero.string_of_uint d)).
  { intros d. destruct (nilzero_digits d) as [Hne Hd]. split; [exact Hne |].
    revert Hd. apply all_chars_weaken. intros c Hc.
    apply negb_true_iff, digit_not_space, Hc. }
  destruct (Z.to_int z) as [d | d]; cbn [NilZero.string_of_int]; [apply Hd |].
  split; [discriminate |]. cbn. apply Hd.
Qed.

Lemma c_space_is_space (c : ascii) :
  PyStr.is_c_space c = true -> PyStr.is_space c = true.
Proof.
  unfold PyStr.is_c_space, PyStr.is_space. intros H.
  apply orb_true_iff. left. exact H.
Qed.

Lemma lskip_padding (ws s : string) :
  Lines.padding ws -> PyStr.lskip (ws ++ s) = PyStr.lskip s.
Proof.
  unfold Lines.padding. induction ws as [| c ws IH]; cbn; [reflexivity |].
  intros H. apply andb_prop in H. destruct H as [Hc Hws]. rewrite Hc. auto.
Qed.

Lemma rskip_padding (ws : string) : Lines.padding ws -> PyStr.rskip ws = "".
Proof.
  unfold Lines.padding. induction ws as [| c ws IH]; cbn; [reflexivity |].
  intros H. apply andb_prop in H. destruct H as [Hc Hws].
  rewrite (IH Hws), Hc. reflexivity.
Qed.

Lemma rskip_app_padding (s ws : string) :
  Lines.padding ws -> PyStr.rskip (s ++ ws) = PyStr.rskip s.
Proof.
  intros H. induction s as [| c s IH]; cbn [append PyStr.rskip];
    [apply rskip_padding, H | rewrite IH; reflexivity].
Qed.

Lemma rskip_solid (s : string) :
  all_chars (fun c => negb (PyStr.is_c_space c)) s = true -> PyStr.rskip s = s.
Proof.
  induction s as [| c s IH]; cbn; [reflexivity |]. intros H.
  apply andb_prop in H. destruct H as [Hc Hs]. apply negb_true_iff in Hc.
  rewrite (IH Hs), Hc. destruct s; reflexivity.
Qed.

(** What [int] reads of a number with padding around it. *)
Lemma skip_padded (ws1 s ws2 : string) :
  Lines.padding ws1 -> Lines.padding ws2 -> solid s ->
  PyStr.rskip (PyStr.lskip (ws1 ++ s ++ ws2)) = s.
Proof.
  intros H1 H2 [Hne Hs].
  assert (Hs' : all_chars (fun c => negb (PyStr.is_c_space c)) s = true).
  { revert Hs. apply all_chars_weaken. intros c Hc.
    apply negb_true_iff. apply negb_true_iff in Hc.
    destruct (PyStr.is_c_space c) eqn:E; [| reflexivity].
    apply c_space_is_space in E. congruence. }
  rewrite lskip_padding by exact H1.
  destruct s as [| c s]; [congruence |].
  assert (Hc : PyStr.is_c_space c = false).
  { cbn in Hs'. apply andb_prop in Hs'. destruct Hs' as [Hc _].
    apply negb_true_iff, Hc. }
  cbn [append PyStr.lskip]. rewrite Hc.
  change (String c (s ++ ws2)) with (String c s ++ ws2).
  rewrite rskip_app_padding by exact H2. apply rskip_solid, Hs'.
Qed.

Lemma int_unsigned (s : string) (d : Decimal.uint) :
  PyStr.rskip (PyStr.lskip s) = NilZero.string_of_uint d ->
  PyStr.int s = Ok (Z.of_uint d).
Proof.
  intros H. unfold PyStr.int, Z.of_uint. rewrite H, <- value_of_uint.
  assert (E : match NilZero.string_of_uint d with
              | String "+"%char rest => PyStr.digits 0 false rest
              | String "-"%char rest => option_map Z.opp (PyStr.digits 0 false rest)
              | t => PyStr.digits 0 false t
              end = Some (Lines.value 0 d)).
  { rewrite <- (digits_of_nilzero d). destruct d; reflexivity. }
  rewrite E. reflexivity.
Qed.

Lemma int_negative (s : string) (d : Decimal.uint) :
  PyStr.rskip (PyStr.lskip s) = String "-" (NilZero.string_of_uint d) ->
  PyStr.int s = Ok (- Z.of_uint d).
Proof.
  intros H. unfold PyStr.int, Z.of_uint. rewrite H, <- value_of_uint.
  cbv iota beta. rewrite digits_of_nilzero. reflexivity.
Qed.

(** [int(str(z))] is [z], also with padding around the text. *)
Lemma int_str_int (ws1 ws2 : string) (z : Z) :
  Lines.padding ws1 -> Lines.padding ws2 ->
  PyStr.int (ws1 ++ PyStr.str_int z ++ ws2) = Ok z.
Proof.
  intros H1 H2.
  pose proof (skip_padded ws1 _ ws2 H1 H2 (str_int_solid z)) as Hs.
  rewrite <- (DecimalZ.of_to z) at 2. unfold PyStr.str_int in *.
  destruct (Z.to_int z) as [d | d]; cbn [Z.of_int NilZero.string_of_int] in *.
  - apply int_unsigned, Hs.
  - apply int_negative, Hs.
Qed.

Lemma int_str_int_plain (z : Z) : PyStr.int (PyStr.str_int z) = Ok z.
Proof.
  pose proof (int_str_int "" "" z eq_refl eq_refl) as H.
  cbn [append] in H. rewrite append_empty_r in H. exact H.
Qed.

Lemma int_str_int_left (ws : string) (z : Z) :
  Lines.padding ws -> PyStr.int (ws ++ PyStr.str_int z) = Ok z.
Proof.
  intros Hws. pose proof (int_str_int ws "" z Hws eq_refl) as H.
  rewrite append_empty_r in H. exact H.
Qed.

Lemma str_int_chars (z : Z) :
  all_chars (fun c => is_digit c || Ascii.eqb c "-")%bool (PyStr.str_int z) = true.
Proof.
  unfold PyStr.str_int.
  assert (Hd : forall d, all_chars (fun c => is_digit c || Ascii.eqb c "-")%bool
                           (NilZero.string_of_uint d) = true).
  { intros d. destruct (nilzero_digits d) as [_ Hd]. revert Hd.
    apply all_chars_weaken. intros c ->. reflexivity. }
  destruct (Z.to_int z) as [d | d]; cbn [NilZero.string_of_int]; [apply Hd |].
  cbn. apply Hd.
Qed.

Lemma str_int_lacks_comma (z : Z) : lacks PyStr.comma (PyStr.str_int z).
Proof.
  unfold lacks. generalize (str_int_chars z). apply all_chars_weaken.
  intros c. destruct c as [[|] [|] [|] [|] [|] [|] [|] [|]]; vm_compute; congruence.
Qed.

Lemma solid_lacks_space (s : string) :
  all_chars (fun c => negb (PyStr.is_space c)) s = true -> lacks PyStr.space s.
Proof.
  apply all_chars_weaken.
  intros c. destruct c as [[|] [|] [|] [|] [|] [|] [|] [|]]; vm_compute; congruence.
Qed.

Lemma padding_lacks_comma (s : string) : Lines.padding s -> lacks PyStr.comma s.
Proof.
  apply all_chars_weaken.
  intros c. destruct c as [[|] [|] [|] [|] [|] [|] [|] [|]]; vm_compute; congruence.
Qed.

Lemma split_acc_token (sep : ascii) (cur t rest : string) :
  lacks sep t ->
  PyStr.split_acc sep cur (t ++ String sep rest)
  = (cur ++ t) :: PyStr.split_acc sep "" rest.
Proof.
  unfold lacks. revert cur. induction t as [| c t IH]; intros cur Ht.
  - cbn. rewrite Ascii.eqb_refl, append_empty_r. reflexivity.
  - cbn [all_chars] in Ht. apply andb_prop in Ht. destruct Ht as [Hc Ht].
    cbn [append PyStr.split_acc]. apply negb_true_iff in Hc. rewrite Hc.
    rewrite IH by exact Ht. rewrite append_assoc. reflexivity.
Qed.

Lemma split_acc_last (sep : ascii) (cur t : string) :
  lacks sep t -> PyStr.split_acc sep cur t = [(cur ++ t)%string].
Proof.
  unfold lacks. revert cur. induction t as [| c t IH]; intros cur Ht.
  - cbn. rewrite append_empty_r. reflexivity.
  - cbn [all_chars] in Ht. apply andb_prop in Ht. destruct Ht as [Hc Ht].
    cbn [PyStr.split_acc]. apply negb_true_iff in Hc. rewrite Hc.
    rewrite IH by exact Ht. rewrite append_assoc. reflexivity.
Qed.

Lemma split_acc_prefix (sep : ascii) (cur p s : string) :
  lacks sep p ->
  PyStr.split_acc sep cur (p ++ s) = PyStr.split_acc sep (cur ++ p) s.
Proof.
  unfold lacks. revert cur. induction p as [| c p IH]; intros cur Hp.
  - cbn. rewrite append_empty_r. reflexivity.
  - cbn [all_chars] in Hp. apply andb_prop in Hp. destruct Hp as [Hc Hp].
    cbn [append PyStr.split_acc]. apply negb_true_iff in Hc. rewrite Hc.
    rewrite IH by exact Hp. rewrite append_assoc. reflexivity.
Qed.

Lemma split1_acc_token (sep : ascii) (cur t rest : string) :
  lacks sep t ->
  PyStr.split1_acc sep cur (t ++ String sep rest) = [(cur ++ t)%string; rest].
Proof.
  unfold lacks. revert cur. induction t as [| c t IH]; intros cur Ht.
  - cbn. rewrite Ascii.eqb_refl, append_empty_r. reflexivity.
  - cbn [all_chars] in Ht. apply andb_prop in Ht. destruct Ht as [Hc Ht].
    cbn [append PyStr.split1_acc]. apply negb_true_iff in Hc. rewrite Hc.
    rewrite IH by exact Ht. rewrite append_assoc. reflexivity.
Qed.

Lemma split1_acc_whole (sep : ascii) (cur t : string) :
  lacks sep t -> PyStr.split1_acc sep cur t = [(cur ++ t)%string].
Proof.
  unfold lacks. revert cur. induction t as [| c t IH]; intros cur Ht.
  - cbn. rewrite append_empty_r. reflexivity.
  - cbn [all_chars] in Ht. apply andb_prop in Ht. destruct Ht as [Hc Ht].
    cbn [PyStr.split1_acc]. apply negb_true_iff in Hc. rewrite Hc.
    rewrite IH by exact Ht. rewrite append_assoc. reflexivity.
Qed.

Lemma split_friend_list (pad cur : string) (f : Z) (rest : list Z) :
  Lines.padding pad ->
  PyStr.split_acc PyStr.comma cur (Lines.friend_list pad (f :: rest))
  = ((cur ++ PyStr.str_int f)%string
       :: map (fun g => (pad ++ PyStr.str_int g)%string) rest)%list.
Proof.
  intros Hpad. revert f cur. induction rest as [| g rest IH]; intros f cur.
  - cbn [Lines.friend_list map]. apply split_acc_last, str_int_lacks_comma.
  - change (Lines.friend_list pad (f :: g :: rest))
      with (PyStr.str_int f
            ++ String PyStr.comma (pad ++ Lines.friend_list pad (g :: rest))).
    rewrite split_acc_token by apply str_int_lacks_comma.
    rewrite split_acc_prefix by apply padding_lacks_comma, Hpad.
    rewrite IH. reflexivity.
Qed.

Lemma map_result_map {A B : Type} (f : A -> result B) (g : B -> A) (l : list B) :
  (forall x, f (g x) = Ok x) -> map_result f (map g l) = Ok l.
Proof.
  intros H. induction l as [| x l IH]; cbn; [reflexivity |].
  rewrite H, IH. reflexivity.
Qed.

End Numerals.

(** X1: a line made of the user id, one space, and the friend ids
    separated by commas, with or without padding after each comma (spaces
    and the characters of codes 9 to 13, which [int] skips), is read as
    exactly that row, when the row has a friend. *)
Theorem base_line_is_read (pad : string) (r : base_row)
    (Hpad : Lines.padding pad) (Hfriends : b_friends r <> []) :
  friend_pair (Lines.base_line pad r) = Ok r.
Proof.
  destruct r as [u [| f rest]]; [contradiction |].
  unfold friend_pair, Lines.base_line, PyStr.split1. cbn [b_user b_friends].
  change (PyStr.str_int u ++ " " ++ Lines.friend_list pad (f :: rest))%string
    with (PyStr.str_int u
          ++ String PyStr.space (Lines.friend_list pad (f :: rest)))%string.
  rewrite split1_acc_token
    by (apply solid_lacks_space, (proj2 (str_int_solid u))).
  cbn [PyStr.index nth_error append bind]. rewrite int_str_int_plain. cbn [bind].
  unfold PyStr.split. rewrite split_friend_list by exact Hpad.
  cbn [append map_result]. rewrite int_str_int_plain. cbn [bind].
  rewrite map_result_map by (intros g; apply int_str_int_left, Hpad).
  reflexivity.
Qed.

(** [int] takes a space after the comma and refuses the separator of
    code 28, which [str.strip] would remove. *)
Example int_refuses_file_separator :
  PyStr.int (String (ascii_of_nat 28) "3") = Raise ValueError
  /\ PyStr.strip (String (ascii_of_nat 28) "3") = "3"%string
  /\ friend_pair ("1 2," ++ String (ascii_of_nat 28) "3")%string = Raise ValueError
  /\ friend_pair "1 2, 3" = Ok {| b_user := 1; b_friends := [2; 3] |}.
Proof. repeat split. Qed.

Lemma base_line_is_read_witness :
  friend_pair "1 1, 3" = Ok {| b_user := 1; b_friends := [1; 3] |}.
Proof.
  apply (base_line_is_read " " {| b_user := 1; b_friends := [1; 3] |}).
  - reflexivity.
  - discriminate.
Defined.

Section Reading.

Local Open Scope string_scope.

Lemma split_acc_nonempty (sep : ascii) (cur s : string) :
  PyStr.split_acc sep cur s <> [].
Proof.
  revert cur. induction s as [| c s IH]; intros cur; cbn; [discriminate |].
  destruct (Ascii.eqb c sep); [discriminate | apply IH].
Qed.

Lemma map_result_length {A B : Type} (f : A -> result B) (l : list A) (rows : list B) :
  map_result f l = Ok rows -> List.length rows = List.length l.
Proof.
  intros H. apply map_result_ok in H.
  induction H; cbn; congruence.
Qed.

End Reading.

(** X2: a line without a space is never read: it raises [ValueError]
    when it is not an integer and [IndexError] when it is; and every row
    that is read has at least one friend, so a user without friends
    cannot be written down. *)
Theorem base_line_needs_space_and_friend (line : string) :
  (lacks PyStr.space line ->
   friend_pair line = match PyStr.int line with
                      | Ok _ => Raise IndexError
                      | Raise e => Raise e
                      end)
  /\ (forall r, friend_pair line = Ok r -> b_friends r <> []).
Proof.
  split.
  - intros Hline. unfold friend_pair, PyStr.split1.
    rewrite split1_acc_whole by exact Hline.
    cbn [append PyStr.index nth_error bind].
    destruct (PyStr.int line); reflexivity.
  - intros r. unfold friend_pair.
    destruct (PyStr.index (PyStr.split1 PyStr.space line) 0) as [p0 | e];
      cbn [bind]; [| discriminate].
    destruct (PyStr.int p0) as [u | e]; cbn [bind]; [| discriminate].
    destruct (PyStr.index (PyStr.split1 PyStr.space line) 1) as [p1 | e];
      cbn [bind]; [| discriminate].
    destruct (map_result PyStr.int (PyStr.split PyStr.comma p1)) as [fs | e] eqn:E;
      cbn [bind]; [| discriminate].
    intros [= <-]. cbn. apply map_result_length in E.
    intros ->. cbn in E. symmetry in E. apply length_zero_iff_nil in E.
    revert E. apply split_acc_nonempty.
Qed.

(** X3: without probabilities, every line of the result file is a
    well-formed line of a base file: read back, it gives the user with
    the recommended candidate as the only friend; a result of at least
    one row is read back as a base frame, row by row. *)
Theorem result_file_is_base_file (top : list rec_row) (Htop : top <> []) :
  create_dataframe_for_N_recommendation (map Handlers.plain_line top)
  = Ok (map Lines.as_base_row top).
Proof.
  unfold create_dataframe_for_N_recommendation.
  assert (H : map_result friend_pair (map Handlers.plain_line top)
              = Ok (map Lines.as_base_row top)).
  { clear Htop. induction top as [| r top IH]; cbn [map map_result];
      [reflexivity |].
    change (Handlers.plain_line r) with (Lines.base_line "" (Lines.as_base_row r)).
    rewrite base_line_is_read; [| reflexivity | discriminate].
    cbn [bind]. rewrite IH. reflexivity. }
  rewrite H. cbn [bind]. destruct top; [contradiction | reflexivity].
Qed.

Lemma result_file_is_base_file_witness :
  create_dataframe_for_N_recommendation (map Handlers.plain_line Examples.chain_top)
  = Ok [{| b_user := 1; b_friends := [3] |}; {| b_user := 3; b_friends := [1] |}].
Proof.
  apply (result_file_is_base_file Examples.chain_top). discriminate.
Defined.

Section Fields.

Local Open Scope string_scope.

Lemma strip_solid (s : string) : solid s -> PyStr.strip s = s.
Proof.
  intros H. pose proof (strip_padded "" s "" eq_refl eq_refl H) as E.
  cbn [append] in E. rewrite append_empty_r in E. exact E.
Qed.

Lemma split_comma_space_token (cur t rest : string) :
  lacks PyStr.comma t ->
  PyStr.split_comma_space_acc cur (t ++ String "," (String " " rest))
  = (cur ++ t) :: PyStr.split_comma_space_acc "" rest.
Proof.
  unfold lacks. revert cur. induction t as [| c t IH]; intros cur Ht.
  - cbn. rewrite append_empty_r. reflexivity.
  - cbn [all_chars] in Ht. apply andb_prop in Ht. destruct Ht as [Hc Ht].
    apply negb_true_iff in Hc. specialize (IH (cur ++ String c "") Ht).
    rewrite append_assoc in IH. cbn [append] in IH.
    destruct t as [| c' t]; cbn [append PyStr.split_comma_space_acc] in *;
      rewrite Hc; cbn [andb]; exact IH.
Qed.

Lemma split_comma_space_last (cur t : string) :
  lacks PyStr.comma t ->
  PyStr.split_comma_space_acc cur t = [(cur ++ t)%string].
Proof.
  unfold lacks. revert cur. induction t as [| c t IH]; intros cur Ht.
  - cbn. rewrite append_empty_r. reflexivity.
  - cbn [all_chars] in Ht. apply andb_prop in Ht. destruct Ht as [Hc Ht].
    apply negb_true_iff in Hc. specialize (IH (cur ++ String c "") Ht).
    rewrite append_assoc in IH. cbn [append] in IH.
    destruct t as [| c' t]; [reflexivity |].
    cbn [PyStr.split_comma_space_acc] in *. rewrite Hc. cbn [andb]. exact IH.
Qed.

End Fields.

(** X4: a line made of the ID, one space, and the four attributes
    separated by a comma and a space is read as exactly that record. *)
Theorem demo_line_is_read (d : demo_row) :
  demo_record (Lines.demo_line d) = Ok d.
Proof.
  destruct d as [i g a c e].
  unfold demo_record, Lines.demo_line, PyStr.split1, PyStr.split_comma_space.
  cbn [ID gender age city education].
  match goal with
  | |- context [PyStr.split1_acc _ _ (?t ++ " " ++ ?rest)%string] =>
      change (t ++ " " ++ rest)%string with (t ++ String PyStr.space rest)%string
  end.
  rewrite split1_acc_token
    by (apply solid_lacks_space, (proj2 (str_int_solid i))).
  cbn [PyStr.index nth_error append bind].
  rewrite (strip_solid _ (str_int_solid i)), int_str_int_plain. cbn [bind].
  rewrite !split_comma_space_token by apply str_int_lacks_comma.
  rewrite split_comma_space_last by apply str_int_lacks_comma.
  cbn [PyStr.index nth_error append bind].
  rewrite !int_str_int_plain. cbn [bind].
  rewrite (strip_solid _ (str_int_solid e)), int_str_int_plain. reflexivity.
Qed.

(** ** More on the engine *)

Section Results.

Variable tie : Z -> Z -> Z.

(** The rows of a user are a prefix of the user's eligible candidates in
    some order, numbered from 1. *)
Lemma user_rows_shape (df : list base_row) (N u : Z) :
  exists cs,
    Permutation cs (eligible df u)
    /\ map fof (rows_of u (top_n_recommendations tie df N))
       = firstn (Z.to_nat (Z.min N (Z.of_nat (List.length cs)))) cs
    /\ map rank (rows_of u (top_n_recommendations tie df N))
       = ranks_upto (Z.min N (Z.of_nat (List.length cs))).
Proof.
  rewrite (rows_of_user tie df N u). cbv zeta.
  set (part := partition u (friend_recommendations (candidate_rows df))).
  set (sorted := order_by tie part).
  exists (map g_fof sorted).
  assert (Hpart : map g_fof part = group_candidates u (candidate_rows df)).
  { unfold part. rewrite partition_grouped, map_map. cbn. apply map_id. }
  destruct (group_candidates_spec (candidate_rows df) u) as [Hnd Hin].
  rewrite length_map.
  set (n := Z.min N (Z.of_nat (List.length sorted))).
  assert (Hm : List.length (firstn (Z.to_nat n) sorted) = List.length (ranks_upto n)).
  { unfold ranks_upto. rewrite length_firstn, length_map, length_seq. lia. }
  destruct (combine_projections _ _ Hm) as [Hfst Hsnd].
  split; [| split].
  - apply NoDup_Permutation.
    + eapply Permutation_NoDup; [| exact Hnd]. rewrite <- Hpart.
      apply Permutation_map. symmetry. apply order_by_perm.
    + apply NoDup_nodup.
    + intros c. rewrite in_eligible, <- candidate_of_user, <- Hin, <- Hpart.
      split; apply Permutation_in, Permutation_map;
        [| symmetry]; apply order_by_perm.
  - rewrite map_map. cbn [select_user_fof_rank fof].
    rewrite <- (map_map fst g_fof), Hfst. symmetry. apply firstn_map.
  - rewrite map_map. cbn [select_user_fof_rank rank]. exact Hsnd.
Qed.

Lemma filter_implied {A : Type} (f g : A -> bool) (l : list A) :
  (forall x, f x = true -> g x = true) ->
  filter f (filter g l) = filter f l.
Proof.
  intros H. induction l as [| x l IH]; [reflexivity |]. cbn.
  destruct (g x) eqn:Eg; cbn; [rewrite IH; reflexivity |].
  destruct (f x) eqn:Ef; [| exact IH].
  apply H in Ef. congruence.
Qed.

Lemma in_rows_of (u : Z) (out : list rec_row) (row : rec_row) :
  In row (rows_of u out) <-> In row out /\ user row = u.
Proof.
  unfold rows_of. rewrite filter_In, Z.eqb_eq. reflexivity.
Qed.

Lemma nodup_pairs {A B : Type} (key : A -> Z) (f : A -> B) (l : list A) :
  (forall u, NoDup (map f (filter (fun x => key x =? u) l))) ->
  NoDup (map (fun x => (key x, f x)) l).
Proof.
  induction l as [| x l IH]; intros H; cbn; constructor.
  - intros Hin. apply in_map_iff in Hin. destruct Hin as (y & Hy & Hin).
    injection Hy as Hk Hf. specialize (H (key x)). cbn in H.
    rewrite Z.eqb_refl in H. cbn in H. inversion H as [| ? ? Hnot _]; subst.
    apply Hnot. rewrite <- Hf. apply in_map, filter_In.
    split; [exact Hin | lia].
  - apply IH. intros u. specialize (H u). cbn in H.
    destruct (key x =? u); [| exact H].
    cbn in H. inversion H; assumption.
Qed.

End Results.

Lemma rows_of_user_filter (tie : Z -> Z -> Z) (df : list base_row) (N u : Z) :
  rows_of u (top_n_recommendations tie df N)
  = map select_user_fof_rank
        (filter (fun p : agg_row * Z => snd p <=? N)
                (row_number
                   (order_by tie
                      (partition u (friend_recommendations (candidate_rows df)))))).
Proof.
  rewrite (rows_of_user tie df N u). cbv zeta. rewrite <- filter_rank. reflexivity.
Qed.

Lemma partition_aggregate (tie : Z -> Z -> Z) (df : list base_row) (u : Z)
    (a : agg_row) :
  In a (order_by tie (partition u (friend_recommendations (candidate_rows df)))) ->
  common_friends a = aggregate df u (g_fof a).
Proof.
  intros Ha. apply (Permutation_in _ (order_by_perm tie _)) in Ha.
  rewrite partition_grouped in Ha. apply in_map_iff in Ha.
  destruct Ha as (c & <- & _). reflexivity.
Qed.

(** Two descending arrangements of the same values are the same list. *)
Lemma sorted_perm_unique (l l' : list Z) :
  Permutation l l' ->
  StronglySorted (fun a b => b <= a) l -> StronglySorted (fun a b => b <= a) l' ->
  l = l'.
Proof.
  revert l'. induction l as [| x l IH]; intros l' Hp Hs Hs'.
  - apply Permutation_nil in Hp. congruence.
  - destruct l' as [| y l'];
      [apply Permutation_sym, Permutation_nil in Hp; discriminate |].
    inversion Hs as [| ? ? Hsl Hx]; subst. inversion Hs' as [| ? ? Hsl' Hy]; subst.
    rewrite Forall_forall in Hx, Hy.
    assert (Hyx : y <= x).
    { assert (Hin : In y (x :: l))
        by (apply (Permutation_in _ (Permutation_sym Hp)); now left).
      destruct Hin as [-> | Hin]; [lia | apply Hx, Hin]. }
    assert (Hxy : x <= y).
    { assert (Hin : In x (y :: l')) by (apply (Permutation_in _ Hp); now left).
      destruct Hin as [-> | Hin]; [lia | apply Hy, Hin]. }
    assert (x = y) as -> by lia.
    f_equal. apply IH; [eapply Permutation_cons_inv, Hp | assumption | assumption].
Qed.

Lemma map_combine_swap {A : Type} (f : A -> Z) (l : list A) (ks : list Z) :
  map (fun p : A * Z => (snd p, f (fst p))) (combine l ks) = combine ks (map f l).
Proof.
  revert ks. induction l as [| a l IH]; intros [| k ks]; cbn; try reflexivity.
  rewrite IH. reflexivity.
Qed.

(** The values of a partition in the order of the window: the same for
    every order among ties. *)
Lemma ordered_values_unique (tie tie' : Z -> Z -> Z) (part : list agg_row) :
  map common_friends (order_by tie part) = map common_friends (order_by tie' part).
Proof.
  apply sorted_perm_unique.
  - apply Permutation_map. rewrite order_by_perm, order_by_perm. reflexivity.
  - apply sorted_map with (R := at_least); [| apply order_by_sorted].
    unfold at_least. auto.
  - apply sorted_map with (R := at_least); [| apply order_by_sorted].
    unfold at_least. auto.
Qed.

Lemma rank_profile_shape (tie : Z -> Z -> Z) (df : list base_row) (N u : Z) :
  Lines.rank_profile df u (top_n_recommendations tie df N)
  = filter (fun p : Z * Z => fst p <=? N)
      (combine
         (map Z.of_nat
              (seq 1 (List.length
                        (partition u (friend_recommendations (candidate_rows df))))))
         (map common_friends
              (order_by tie
                 (partition u (friend_recommendations (candidate_rows df)))))).
Proof.
  unfold Lines.rank_profile. rewrite rows_of_user_filter, map_map.
  cbn [select_user_fof_rank rank fof].
  set (sorted := order_by tie
                   (partition u (friend_recommendations (candidate_rows df)))).
  assert (E : map (fun p : agg_row * Z => (snd p, aggregate df u (g_fof (fst p))))
                  (filter (fun p : agg_row * Z => snd p <=? N) (row_number sorted))
              = filter (fun p : Z * Z => fst p <=? N)
                  (map (fun p : agg_row * Z =>
                          (snd p, aggregate df u (g_fof (fst p))))
                       (row_number sorted)))
    by (rewrite filter_map_swap; reflexivity).
  rewrite E. f_equal. unfold row_number.
  pose proof (map_combine_swap (fun a => aggregate df u (g_fof a)) sorted
                (map Z.of_nat (seq 1 (List.length sorted)))) as E2.
  cbv beta in E2. rewrite E2. clear E E2. subst sorted.
  rewrite (Permutation_length (order_by_perm tie _)). f_equal.
  apply map_ext_in. intros a Ha. symmetry. apply (partition_aggregate tie), Ha.
Qed.

(** X5: for N <= N', whatever the order among ties in either run, the
    rows of a user in the result for N carry the same ranks, with the
    same aggregated values, as the rows of rank at most N in the result
    for N': which candidate stands at a rank may differ between runs, the
    value at the rank does not, and a smaller N only cuts the list. *)
Theorem smaller_N_cuts_rank_profile (tie tie' : Z -> Z -> Z) (df : list base_row)
    (N N' u : Z) (HN : N <= N') :
  Lines.rank_profile df u (top_n_recommendations tie df N)
  = filter (fun p => fst p <=? N)
           (Lines.rank_profile df u (top_n_recommendations tie' df N')).
Proof.
  rewrite !rank_profile_shape.
  rewrite (ordered_values_unique tie tie').
  rewrite filter_implied; [reflexivity |].
  intros p Hp. apply Z.leb_le in Hp. apply Z.leb_le. lia.
Qed.

Lemma smaller_N_cuts_rank_profile_witness :
  Lines.rank_profile Examples.pair_df 1
    (top_n_recommendations Lines.smaller_first Examples.pair_df 1)
  = filter (fun p => fst p <=? 1)
           (Lines.rank_profile Examples.pair_df 1
              (top_n_recommendations Examples.larger_first Examples.pair_df 2)).
Proof.
  apply (smaller_N_cuts_rank_profile Lines.smaller_first Examples.larger_first
           Examples.pair_df 1 2 1).
  lia.
Defined.

(** X6: a user has rows in the result exactly when N is at least 1 and
    the user has an eligible candidate; such a user has a row of rank 1. *)
Theorem user_is_served_iff_eligible (tie : Z -> Z -> Z) (df : list base_row)
    (N u : Z) :
  ((exists row, In row (top_n_recommendations tie df N) /\ user row = u)
   <-> 1 <= N /\ exists c, is_eligible df u c)
  /\ (1 <= N -> (exists c, is_eligible df u c) ->
      exists row, In row (top_n_recommendations tie df N)
                  /\ user row = u /\ rank row = 1).
Proof.
  destruct (user_rows_shape tie df N u) as (cs & Hperm & Hfof & Hrank).
  assert (Hfirst : 1 <= N -> (exists c, is_eligible df u c) ->
                   exists row, In row (top_n_recommendations tie df N)
                               /\ user row = u /\ rank row = 1).
  { intros HN (c & Hc). apply in_eligible in Hc.
    apply (Permutation_in _ (Permutation_sym Hperm)) in Hc.
    destruct cs as [| c0 cs]; [destruct Hc |].
    replace (Z.min N (Z.of_nat (List.length (c0 :: cs))))
      with (Z.of_nat (S (Z.to_nat (Z.min N (Z.of_nat (List.length (c0 :: cs))) - 1))))
      in Hrank by (cbn [List.length]; lia).
    unfold ranks_upto in Hrank. rewrite Nat2Z.id in Hrank. cbn [seq map] in Hrank.
    destruct (rows_of u (top_n_recommendations tie df N)) as [| row rows] eqn:E;
      [discriminate |].
    assert (Hin : In row (rows_of u (top_n_recommendations tie df N)))
      by (rewrite E; now left).
    apply in_rows_of in Hin. exists row. cbn in Hrank.
    injection Hrank as Hr _. tauto. }
  split; [| exact Hfirst]. split.
  - intros (row & Hin & Hu). split.
    + apply in_top_n_recommendations in Hin. lia.
    + apply in_top_n_recommendations in Hin.
      destruct Hin as [_ (r & Hr & Hju & Hjf)]. exists (fof row).
      apply candidate_of_user. exists r. repeat split; congruence.
  - intros [HN Hc]. destruct (Hfirst HN Hc) as (row & Hin & Hu & _).
    exists row. tauto.
Qed.

Lemma in_result_eligible (tie : Z -> Z -> Z) (df : list base_row) (N : Z)
    (row : rec_row) :
  In row (top_n_recommendations tie df N) -> is_eligible df (user row) (fof row).
Proof.
  intros Hin. apply in_top_n_recommendations in Hin.
  destruct Hin as [_ (r & Hr & Hu & Hf)].
  apply candidate_of_user. exists r. auto.
Qed.

Lemma eligible_in_result (tie : Z -> Z -> Z) (df : list base_row) (N u c : Z) :
  Z.of_nat (List.length (eligible df u)) <= N ->
  is_eligible df u c ->
  exists row, In row (top_n_recommendations tie df N) /\ user row = u /\ fof row = c.
Proof.
  intros HN Hc.
  destruct (user_rows_shape tie df N u) as (cs & Hperm & Hfof & _).
  rewrite (Permutation_length Hperm) in Hfof.
  replace (Z.to_nat (Z.min N (Z.of_nat (List.length (eligible df u)))))
    with (List.length cs) in Hfof
    by (rewrite (Permutation_length Hperm); lia).
  rewrite firstn_all in Hfof.
  apply in_eligible in Hc.
  apply (Permutation_in _ (Permutation_sym Hperm)) in Hc.
  rewrite <- Hfof in Hc. apply in_map_iff in Hc.
  destruct Hc as (row & Hf & Hin). apply in_rows_of in Hin.
  exists row. tauto.
Qed.

(** X7: when N is at least the number of a user's eligible candidates,
    the user's rows name exactly the eligible candidates: nothing is cut. *)
Theorem large_N_returns_all (tie : Z -> Z -> Z) (df : list base_row) (N u : Z)
    (HN : Z.of_nat (List.length (eligible df u)) <= N) (c : Z) :
  is_eligible df u c
  <-> exists row, In row (top_n_recommendations tie df N)
                  /\ user row = u /\ fof row = c.
Proof.
  split.
  - apply eligible_in_result, HN.
  - intros (row & Hin & <- & <-). eapply in_result_eligible, Hin.
Qed.

Lemma large_N_returns_all_witness :
  is_eligible Examples.fan_df 1 4
  <-> exists row, In row (top_n_recommendations Examples.arrival Examples.fan_df 2)
                  /\ user row = 1 /\ fof row = 4.
Proof.
  apply (large_N_returns_all Examples.arrival Examples.fan_df 2 1).
  vm_compute. discriminate.
Defined.

(** X8: no (user, candidate) pair and no (user, rank) pair occurs twice
    in a result. *)
Theorem result_pairs_are_unique (tie : Z -> Z -> Z) (df : list base_row) (N : Z) :
  NoDup (map (fun r => (user r, fof r)) (top_n_recommendations tie df N))
  /\ NoDup (map (fun r => (user r, rank r)) (top_n_recommendations tie df N)).
Proof.
  split; apply nodup_pairs; intros u;
    destruct (user_rows_shape tie df N u) as (cs & Hperm & Hfof & Hrank);
    fold (rows_of u (top_n_recommendations tie df N)).
  - rewrite Hfof.
    assert (Hnd : NoDup cs).
    { eapply Permutation_NoDup; [symmetry; exact Hperm | apply NoDup_nodup]. }
    rewrite <- (firstn_skipn (Z.to_nat (Z.min N (Z.of_nat (List.length cs)))) cs)
      in Hnd.
    eapply NoDup_app_remove_r, Hnd.
  - rewrite Hrank. unfold ranks_upto.
    apply Finite.Injective_map_NoDup_in; [| apply seq_NoDup].
    intros x y _ _. lia.
Qed.

Lemma eligible_is_mutual (df : list base_row) (u c : Z) :
  NoDup (map b_user df) -> symmetric df ->
  is_eligible df u c -> is_eligible df c u.
Proof.
  intros Hkeys Hsym (l1 & l2 & f & Hl1 & Hl2 & Hu & Hf & Hk & Hc & Hne & Hnot).
  destruct (Hsym l2 c Hl2 Hc) as (l3 & Hl3 & Hu3 & Hf3).
  destruct (Hsym l1 f Hl1 Hf) as (l4 & Hl4 & Hu4 & Hf4).
  assert (l4 = l2) as -> by (apply (unique_line df); congruence).
  exists l3, l2, f. repeat split; try assumption; try congruence.
  intros Hin. destruct (Hsym l3 u Hl3 Hin) as (l5 & Hl5 & Hu5 & Hf5).
  assert (l5 = l1) as -> by (apply (unique_line df); congruence).
  apply Hnot. congruence.
Qed.

Lemma symmetricb_sound (df : list base_row) :
  Lines.symmetricb df = true -> symmetric df.
Proof.
  unfold Lines.symmetricb, symmetric. rewrite forallb_forall.
  intros H l1 f Hl1 Hf. specialize (H l1 Hl1). rewrite forallb_forall in H.
  specialize (H f Hf). apply existsb_exists in H. destruct H as (l2 & Hl2 & H).
  apply andb_prop in H. destruct H as [Hu Hin].
  exists l2. split; [exact Hl2 |]. split; [lia |].
  apply array_contains_In, Hin.
Qed.

(** X9: in a symmetric relation with one line per user, recommendations
    are mutual: when the candidate's own rows are not cut by N, a row
    (user, candidate) comes with a row (candidate, user). *)
Theorem symmetric_relation_recommends_both_ways (tie : Z -> Z -> Z)
    (df : list base_row) (N : Z) (row : rec_row)
    (Hkeys : NoDup (map b_user df)) (Hsym : symmetric df)
    (HN : Z.of_nat (List.length (eligible df (fof row))) <= N)
    (Hrow : In row (top_n_recommendations tie df N)) :
  exists back, In back (top_n_recommendations tie df N)
               /\ user back = fof row /\ fof back = user row.
Proof.
  apply eligible_in_result; [exact HN |].
  apply eligible_is_mutual; [exact Hkeys | exact Hsym |].
  eapply in_result_eligible, Hrow.
Qed.

Lemma symmetric_relation_recommends_both_ways_witness :
  exists back, In back (top_n_recommendations Examples.arrival Examples.chain_df 1)
               /\ user back = 3 /\ fof back = 1.
Proof.
  apply (symmetric_relation_recommends_both_ways Examples.arrival
           Examples.chain_df 1 {| user := 1; fof := 3; rank := 1 |}).
  - cbn. repeat constructor; cbn; intuition lia.
  - apply symmetricb_sound. reflexivity.
  - vm_compute. discriminate.
  - left. reflexivity.
Defined.

(** ** More on the scorer *)

(** X10: every probability the scorer emits lies between 0 and 1, also
    on rows whose user or candidate has no record. *)
Theorem probability_in_unit_interval (top_n : list rec_row) (ap : list demo_row)
    (s : scored_row) (Hs : In s (scored_recommendations top_n ap)) :
  PrimFloat.leb 0 (probability s) = true /\ PrimFloat.leb (probability s) 1 = true.
Proof.
  apply in_scored_recommendations in Hs. destruct Hs as [-> _].
  destruct (user_props (joined s)) as [du |] eqn:Eu;
    [destruct (potential_friend_props (joined s)) as [dc |] eqn:Ec |].
  - destruct (unclamped_both_present (joined s) du dc Eu Ec)
      as (b1 & b2 & b3 & b4 & b5 & b6 & _ & _ & _ & _ & _ & _ & Hcode).
    cbn [score probability]. rewrite Hcode. clear.
    destruct b1, b2, b3, b4, b5, b6; split; reflexivity.
  - rewrite probability_missing_record by (right; exact Ec).
    destruct (present_education (joined s)); split; reflexivity.
  - rewrite probability_missing_record by (left; exact Eu).
    destruct (present_education (joined s)); split; reflexivity.
Qed.

Lemma probability_in_unit_interval_witness :
  PrimFloat.leb 0 (probability (score Examples.same_gender_pair)) = true
  /\ PrimFloat.leb (probability (score Examples.same_gender_pair)) 1 = true.
Proof.
  apply (probability_in_unit_interval
           [{| user := 1; fof := 3; rank := 1 |}]
           [Examples.same_gender_user; Examples.same_gender_friend]).
  left. reflexivity.
Defined.

Lemma left_join_length {A B : Type} (key : A -> Z) (mk : A -> option demo_row -> B)
    (left : list A) (ap : list demo_row) :
  (List.length left <= List.length (left_join key mk left ap))%nat.
Proof.
  unfold left_join. induction left as [| r left IH]; cbn [flat_map];
    [simpl; lia |].
  rewrite length_app.
  destruct (filter (fun d => key r =? ID d) ap);
    rewrite ?length_map; cbn [Datatypes.length]; lia.
Qed.

(** X11: whatever the secondary frame holds, also several records for
    one ID, scoring drops no recommendation and invents none: the scored
    frame names exactly the recommendations of the ranked frame, and has
    at least as many rows. *)
Theorem scoring_drops_and_invents_nothing (top_n : list rec_row)
    (ap : list demo_row) :
  (forall rec, In rec (map (fun s => recommendation (joined s))
                           (scored_recommendations top_n ap))
               <-> In rec top_n)
  /\ (List.length top_n <= List.length (scored_recommendations top_n ap))%nat.
Proof.
  split.
  - intros rec. rewrite in_map_iff. split.
    + intros (s & <- & Hs). apply in_scored_recommendations in Hs. tauto.
    + intros Hrec.
      destruct (side_ok_inhabited ap (user rec)) as [u Hu].
      destruct (side_ok_inhabited ap (fof rec)) as [c Hc].
      exists (score {| recommendation := rec; user_props := u;
                       potential_friend_props := c |}).
      split; [reflexivity |]. apply in_scored_recommendations. cbn. auto.
  - unfold scored_recommendations, join_demographics. rewrite length_map.
    etransitivity; [| apply left_join_length]. apply left_join_length.
Qed.

(** ** The job shell *)

Section Shell.

Variable tie : Z -> Z -> Z.
Variable str_float : float -> string.

Local Open Scope string_scope.

Lemma set_same {V : Type} (k : string) (v : V) (d : Jobs.dict V) :
  Jobs.set k v d k = Some v.
Proof. unfold Jobs.set. rewrite String.eqb_refl. reflexivity. Qed.

Lemma set_other {V : Type} (k k' : string) (v : V) (d : Jobs.dict V) :
  k' <> k -> Jobs.set k v d k' = d k'.
Proof.
  intros H. unfold Jobs.set. apply String.eqb_neq in H. rewrite H. reflexivity.
Qed.

Lemma length_append (a b : string) :
  String.length (a ++ b) = (String.length a + String.length b)%nat.
Proof. induction a as [| c a IH]; cbn; [reflexivity | rewrite IH; reflexivity]. Qed.

Lemma append_cancel_r (a b s : string) : a ++ s = b ++ s -> a = b.
Proof.
  revert b. induction a as [| c a IH]; intros [| c' b] H; cbn in H.
  - reflexivity.
  - apply (f_equal String.length) in H. cbn in H. rewrite length_append in H. lia.
  - apply (f_equal String.length) in H. cbn in H. rewrite length_append in H. lia.
  - injection H as -> H. f_equal. apply IH, H.
Qed.

Lemma result_name_inj (a b : string) :
  Jobs.result_name a = Jobs.result_name b -> a = b.
Proof.
  unfold Jobs.result_name. cbn [append]. intros H.
  injection H as H. apply append_cancel_r in H. exact H.
Qed.

(** Every job marked completed has its result file. *)
Lemma completed_has_file (st : Jobs.state) :
  Jobs.reachable tie str_float st ->
  forall calculate_id,
    Jobs.calculate_status st calculate_id = Some "completed" ->
    exists text, Jobs.output_folder st (Jobs.result_name calculate_id) = Some text.
Proof.
  induction 1 as [| id0 base sec use N st Hst IH | t st Hst IH]; intros id Hid.
  - discriminate.
  - cbn in *. destruct (string_dec id id0) as [-> | Hne].
    + rewrite set_same in Hid. discriminate.
    + rewrite set_other in Hid by exact Hne. apply IH, Hid.
  - unfold Jobs.calculate_recomendations_task in *.
    destruct (Jobs.task_text tie str_float t) as [text | e];
      cbn [snd Jobs.calculate_status Jobs.output_folder Jobs.set_status
           Jobs.write_file] in *.
    + destruct (string_dec id (Jobs.t_calculate_id t)) as [-> | Hne].
      * exists text. apply set_same.
      * rewrite !set_other in Hid by exact Hne. destruct (IH id Hid) as [old Hold].
        destruct (string_dec (Jobs.result_name id)
                             (Jobs.result_name (Jobs.t_calculate_id t)))
          as [E | E].
        -- exists text. rewrite E. apply set_same.
        -- exists old. rewrite set_other by exact E. exact Hold.
    + destruct (string_dec id (Jobs.t_calculate_id t)) as [-> | Hne].
      * rewrite set_same in Hid. discriminate.
      * rewrite set_other in Hid by exact Hne. apply IH, Hid.
Qed.

End Shell.

(** X12: when the computation of a task succeeds, the job is reported as
    completed with the file url [/output/<id>], and the download gives the
    text the task wrote, under the name [result_<id>.txt]. *)
Theorem finished_job_is_downloadable (tie : Z -> Z -> Z) (str_float : float -> string)
    (t : Jobs.task) (st : Jobs.state) (text : string)
    (Hok : Jobs.task_text tie str_float t = Ok text) :
  fst (Jobs.calculate_recomendations_task tie str_float t st) = None
  /\ Jobs.get_calculate_status (Jobs.t_calculate_id t)
       (snd (Jobs.calculate_recomendations_task tie str_float t st))
     = {| Jobs.task_id := Jobs.t_calculate_id t; Jobs.status := "completed";
          Jobs.file_url := Some ("/output/" ++ Jobs.t_calculate_id t)%string |}
  /\ Jobs.download_file (Jobs.t_calculate_id t)
       (snd (Jobs.calculate_recomendations_task tie str_float t st))
     = Jobs.FileResponse text (Jobs.result_name (Jobs.t_calculate_id t)).
Proof.
  unfold Jobs.calculate_recomendations_task. rewrite Hok. cbn [fst snd].
  split; [reflexivity |]. split.
  - unfold Jobs.get_calculate_status, Jobs.set_status. cbn.
    rewrite set_same. reflexivity.
  - unfold Jobs.download_file, Jobs.set_status, Jobs.write_file. cbn.
    rewrite set_same. reflexivity.
Qed.

Lemma finished_job_is_downloadable_witness :
  Jobs.download_file "a" JobExamples.after_chain
  = Jobs.FileResponse
      (Handlers.write_lines (map Handlers.plain_line Examples.chain_top))
      "result_a.txt".
Proof.
  apply (finished_job_is_downloadable Examples.arrival Examples.sample_str_float
           (JobExamples.chain_task "a") Jobs.initial).
  reflexivity.
Defined.

(** X13: when the computation of a task raises, the job stays
    in_progress, with no file url; no file is written, and there is no
    status that tells the failure. *)
Theorem failed_job_stays_in_progress (tie : Z -> Z -> Z) (str_float : float -> string)
    (t : Jobs.task) (st : Jobs.state) (e : py_error)
    (Hraise : Jobs.task_text tie str_float t = Raise e) :
  fst (Jobs.calculate_recomendations_task tie str_float t st) = Some e
  /\ Jobs.get_calculate_status (Jobs.t_calculate_id t)
       (snd (Jobs.calculate_recomendations_task tie str_float t st))
     = {| Jobs.task_id := Jobs.t_calculate_id t; Jobs.status := "in_progress";
          Jobs.file_url := None |}
  /\ forall calculate_id,
       Jobs.download_file calculate_id
         (snd (Jobs.calculate_recomendations_task tie str_float t st))
       = Jobs.download_file calculate_id st.
Proof.
  unfold Jobs.calculate_recomendations_task. rewrite Hraise. cbn [fst snd].
  split; [reflexivity |]. split; [| reflexivity].
  unfold Jobs.get_calculate_status, Jobs.set_status. cbn.
  rewrite set_same. reflexivity.
Qed.

Lemma failed_job_stays_in_progress_witness :
  Jobs.get_calculate_status "b"
    (snd (Jobs.calculate_recomendations_task Examples.arrival
            Examples.sample_str_float (JobExamples.empty_task "b") Jobs.initial))
  = {| Jobs.task_id := "b"; Jobs.status := "in_progress"; Jobs.file_url := None |}.
Proof.
  apply (failed_job_stays_in_progress Examples.arrival Examples.sample_str_float
           (JobExamples.empty_task "b") Jobs.initial ValueError).
  reflexivity.
Defined.

(** X14: starting a job and running a task change nothing for any other
    job: its status answer and its download are as before. *)
Theorem other_jobs_are_untouched (tie : Z -> Z -> Z) (str_float : float -> string)
    (t : Jobs.task) (st : Jobs.state) (other : string)
    (Hother : other <> Jobs.t_calculate_id t) :
  (forall base_file secondary_file use_secondary_file N,
      let st' := snd (Jobs.start_calculate (Jobs.t_calculate_id t) base_file
                        secondary_file use_secondary_file N st) in
      Jobs.get_calculate_status other st' = Jobs.get_calculate_status other st
      /\ Jobs.download_file other st' = Jobs.download_file other st)
  /\ Jobs.get_calculate_status other
       (snd (Jobs.calculate_recomendations_task tie str_float t st))
     = Jobs.get_calculate_status other st
  /\ Jobs.download_file other
       (snd (Jobs.calculate_recomendations_task tie str_float t st))
     = Jobs.download_file other st.
Proof.
  split; [| split].
  - intros base_file secondary_file use_secondary_file N. cbn.
    unfold Jobs.get_calculate_status, Jobs.download_file. cbn.
    rewrite set_other by exact Hother. split; reflexivity.
  - unfold Jobs.calculate_recomendations_task, Jobs.get_calculate_status.
    destruct (Jobs.task_text tie str_float t); cbn;
      rewrite !set_other by exact Hother; reflexivity.
  - unfold Jobs.calculate_recomendations_task, Jobs.download_file.
    destruct (Jobs.task_text tie str_float t); cbn; [| reflexivity].
    rewrite set_other; [reflexivity |].
    intros E. apply Hother, result_name_inj, E.
Qed.

Lemma other_jobs_are_untouched_witness :
  Jobs.download_file "a"
    (snd (Jobs.calculate_recomendations_task Examples.arrival
            Examples.sample_str_float (JobExamples.empty_task "b")
            JobExamples.after_chain))
  = Jobs.download_file "a" JobExamples.after_chain.
Proof.
  apply (other_jobs_are_untouched Examples.arrival Examples.sample_str_float
           (JobExamples.empty_task "b") JobExamples.after_chain "a").
  discriminate.
Defined.

(** X15: in every state the server can reach, a status answer that
    carries a file url is about a job whose result file exists: the
    download it points to does not answer "File not found". *)
Theorem file_url_is_downloadable (tie : Z -> Z -> Z) (str_float : float -> string)
    (st : Jobs.state) (calculate_id : string)
    (Hreach : Jobs.reachable tie str_float st)
    (Hurl : Jobs.file_url (Jobs.get_calculate_status calculate_id st) <> None) :
  exists text,
    Jobs.download_file calculate_id st
    = Jobs.FileResponse text (Jobs.result_name calculate_id).
Proof.
  assert (Hdone : Jobs.calculate_status st calculate_id = Some "completed"%string).
  { unfold Jobs.get_calculate_status in Hurl.
    destruct (Jobs.calculate_status st calculate_id) as [v |]; cbn in Hurl.
    - destruct (String.eqb v "completed") eqn:E.
      + apply String.eqb_eq in E. subst v. reflexivity.
      + cbn in Hurl. congruence.
    - congruence. }
  destruct (completed_has_file tie str_float st Hreach calculate_id Hdone)
    as [text Htext].
  exists text. unfold Jobs.download_file. rewrite Htext. reflexivity.
Qed.

Lemma file_url_is_downloadable_witness :
  exists text,
    Jobs.download_file "a" JobExamples.after_chain
    = Jobs.FileResponse text (Jobs.result_name "a").
Proof.
  apply (file_url_is_downloadable Examples.arrival Examples.sample_str_float
           JobExamples.after_chain "a").
  - apply Jobs.reach_task, Jobs.reach_initial.
  - discriminate.
Defined.

(** X16: the task that [start_calculate] schedules writes probabilities
    only when the flag is set and a secondary file came with the request;
    otherwise the secondary file is not read at all, and the text is the
    plain one. *)
Theorem probabilities_need_flag_and_file (tie : Z -> Z -> Z)
    (str_float : float -> string) (calculate_id : string)
    (base_file : list string) (secondary_file : option (list string))
    (use_secondary_file : bool) (N : Z) (st : Jobs.state) :
  Jobs.task_text tie str_float
    (snd (fst (Jobs.start_calculate calculate_id base_file secondary_file
                 use_secondary_file N st)))
  = (top <- get_N_recommendation tie base_file N ;;
     match use_secondary_file, secondary_file with
     | true, Some sec =>
         scored <- get_probability top sec ;;
         Ok (Handlers.write_lines (map (Handlers.probability_line str_float) scored))
     | _, _ => Ok (Handlers.write_lines (map Handlers.plain_line top))
     end).
Proof.
  unfold Jobs.task_text, Jobs.start_calculate. cbn.
  unfold Handlers.calculate_recomendations, Handlers.result_lines.
  destruct (get_N_recommendation tie base_file N) as [top | e]; cbn [bind];
    [| reflexivity].
  destruct use_secondary_file, secondary_file as [sec |]; cbn [bind];
    try reflexivity.
  destruct (get_probability top sec); reflexivity.
Qed.
